(** * TimersManager (hw-3.js): a shallow embedding and its properties

    The JavaScript class [TimersManager] keeps a registry of timer
    descriptors ([this.timers]), a global flag ([this.allStarted]) and a log
    array ([this.logData]).  Its methods are embedded below as computations
    of a small state-and-exception monad over an explicit program state that
    also holds the part of the platform the class talks to: the table of
    armed [setTimeout]/[setInterval] timers and the clock read by [new Date].

    Modelling conventions.
    - JavaScript values are the type [value]; numbers are IEEE 754 doubles
      ([spec_float], with NaN, the infinities and signed zeros).
    - A descriptor is the caller's object as the class sees it: the four
      properties it reads plus the two it writes ([callbackParams],
      [timerId]).  Descriptors are kept by value: the caller is taken not to
      write to a descriptor object once it has handed it to [add], nor to
      hand the same object to [add] again.  Objects are plain, ordinary
      data: reading a property runs no code and writing one succeeds (a
      frozen, sealed or non-extensible descriptor, on which the two writes of
      [add] throw, is not represented).
    - The log array is kept in a store and [this.logData] is a reference
      into it, because [print] hands that very reference to the caller.  What
      a holder of the reference can do to the array is write its elements:
      the array stays an ordinary array of entries ([Object.freeze], a [push]
      of the caller's own or a [length] at the limit, after which
      [this.logData.push] throws, are not represented).
    - A log entry holds its inputs by value.  In the program the [in] of
      every entry is the array [descriptor.callbackParams] itself, shared by
      the descriptor and all its entries; the caller is taken not to write
      to that array nor to an entry.
    - A job is a callable known by an identifier; what a call does (return a
      value or throw one, any value) is given by [call], a parameter of the
      development.  Jobs do not call back into the manager.
    - A timer handle is a positive number (a browser's timer id; Node's
      [Timeout] object is likewise truthy and never reused), [null] is
      [None].
    - Timers fire in any order: [fire h] runs the callback of the armed
      timer [h], whatever its delay. *)

From Stdlib Require Import ZArith String Ascii SpecFloat.
From stdpp Require Import base option list gmap strings.

Local Open Scope string_scope.
Local Open Scope list_scope.
Local Open Scope stdpp_scope.
Local Open Scope Z_scope.

Module TimersManager.

(** ** JavaScript values *)

Definition fn_id := nat.
Definition handle := positive.
Definition loc := nat.

#[local] Unset Elimination Schemes.
Inductive value :=
| VUndefined
| VNull
| VBool (b : bool)
| VNum (x : spec_float)
| VStr (s : string)
| VObj (callable : option fn_id) (props : list (string * value)).
#[local] Set Elimination Schemes.

(** Outcome of evaluating something that may throw. *)
Inductive completion (A : Type) :=
| Normal (a : A)
| Throw (e : value).
Arguments Normal {A} a.
Arguments Throw {A} e.

Definition typeof (v : value) : string :=
  match v with
  | VUndefined => "undefined"
  | VNull => "object"
  | VBool _ => "boolean"
  | VNum _ => "number"
  | VStr _ => "string"
  | VObj (Some _) _ => "function"
  | VObj None _ => "object"
  end.

(** ToBoolean: [undefined], [null], [false], [+0], [-0], [NaN] and the empty
    string are falsy, everything else is truthy. *)
Definition truthy (v : value) : bool :=
  match v with
  | VUndefined | VNull => false
  | VBool b => b
  | VNum (S754_zero _) | VNum S754_nan => false
  | VNum _ => true
  | VStr s => negb (String.eqb s EmptyString)
  | VObj _ _ => true
  end.

Fixpoint lookup_prop (k : string) (ps : list (string * value)) : value :=
  match ps with
  | [] => VUndefined
  | (k', v) :: ps' => if String.eqb k k' then v else lookup_prop k ps'
  end.

(** [v.k] for a value that is neither [undefined] nor [null].  Primitives
    have none of the properties this program reads. *)
Definition read_prop (v : value) (k : string) : value :=
  match v with
  | VObj _ ps => lookup_prop k ps
  | _ => VUndefined
  end.

(** [a === b].  Objects are equal when they are the same object; values
    carry no object identity, so two objects compare unequal here.  The
    program only compares against a string. *)
Definition strict_equal (a b : value) : bool :=
  match a, b with
  | VUndefined, VUndefined => true
  | VNull, VNull => true
  | VBool x, VBool y => Bool.eqb x y
  | VNum x, VNum y => SFeqb x y
  | VStr x, VStr y => String.eqb x y
  | _, _ => false
  end.

(** [a < b] on numbers (the program applies it after a [typeof] test). *)
Definition less_than (a b : value) : bool :=
  match a, b with
  | VNum x, VNum y => SFltb x y
  | _, _ => false
  end.

Definition greater_than (a b : value) : bool := less_than b a.

Arguments less_than : simpl never.
Arguments greater_than : simpl never.

(** The doubles 0 and 5000 (5000 = 5000 * 2^40 * 2^-40, a 53-bit mantissa). *)
Definition num_0 : spec_float := S754_zero false.
Definition num_5000 : spec_float := S754_finite false 5497558138880000 (-40).

(** Error objects built by [new Error(msg)] and its subclasses. *)
Definition new_error (cls msg : string) : value :=
  VObj None [("name", VStr cls); ("message", VStr msg)].
Definition new_Error := new_error "Error".
Definition new_TypeError := new_error "TypeError".
Definition new_RangeError := new_error "RangeError".

Definition dquote : string := String (ascii_of_nat 34) EmptyString.

(** ** Program state *)

Record descriptor := mkDescriptor {
  name : value;
  delay : value;
  interval : value;
  job : value;
  callbackParams : list value;
  timerId : option handle
}.

Definition set_timerId (id : option handle) (d : descriptor) : descriptor :=
  mkDescriptor (name d) (delay d) (interval d) (job d) (callbackParams d) id.

Record errorObj := mkErrorObj {
  error_name : value;
  error_message : value;
  error_stack : value
}.

(** The object [_log] pushes; [log_in] is what the array
    [descriptor.callbackParams] holds. *)
Record logObj := mkLogObj {
  log_name : value;
  log_in : list value;
  log_out : value;
  log_created : Z;
  log_error : option errorObj
}.

(** The closure [safeJob] built by [_startTimer]: it captures [descriptor],
    [job] and [callbackParams]. *)
Record closure := mkClosure {
  sj_descriptor : descriptor;
  sj_job : value;
  sj_callbackParams : list value
}.

Inductive timer_kind := Interval | Timeout.

Record platform_timer := mkTimer {
  pt_kind : timer_kind;
  pt_callback : closure;
  pt_delay : value
}.

Record state := mkState {
  timers : list descriptor;
  allStarted : bool;
  logData : loc;
  arrays : gmap loc (list logObj);
  next_handle : handle;
  armed : gmap handle platform_timer;
  clock : Z
}.

Definition set_timers (l : list descriptor) (s : state) : state :=
  mkState l (allStarted s) (logData s) (arrays s) (next_handle s) (armed s) (clock s).
Definition set_allStarted (b : bool) (s : state) : state :=
  mkState (timers s) b (logData s) (arrays s) (next_handle s) (armed s) (clock s).
Definition set_arrays (a : gmap loc (list logObj)) (s : state) : state :=
  mkState (timers s) (allStarted s) (logData s) a (next_handle s) (armed s) (clock s).
Definition set_armed (n : handle) (a : gmap handle platform_timer) (s : state) : state :=
  mkState (timers s) (allStarted s) (logData s) (arrays s) n a (clock s).
Definition set_clock (t : Z) (s : state) : state :=
  mkState (timers s) (allStarted s) (logData s) (arrays s) (next_handle s) (armed s) t.

(** Contents of the array a reference points to. *)
Definition array_read (r : loc) (s : state) : list logObj :=
  default [] (arrays s !! r).

(** Element writes through a reference to an array ([push], [pop],
    [splice], [a[i] = e], [length = 0], ...): they leave other entries in an
    array that is otherwise as it was. *)
Definition array_write (r : loc) (contents : list logObj) (s : state) : state :=
  set_arrays (<[r := contents]> (arrays s)) s.

(** The manager's log, read through [this.logData]. *)
Definition log_of (s : state) : list logObj := array_read (logData s) s.

(** [new TimersManager()] on a platform with no timer armed. *)
Definition new_TimersManager : state :=
  mkState [] false 0%nat {[ 0%nat := [] ]} 1%positive ∅ 0.

(** ** The monad of methods: state plus exceptions *)

Definition M (A : Type) : Type := state -> completion A * state.

Definition ret {A} (a : A) : M A := fun s => (Normal a, s).
Definition throw {A} (e : value) : M A := fun s => (Throw e, s).
Definition bind {A B} (c : M A) (k : A -> M B) : M B :=
  fun s => match c s with
           | (Normal a, s') => k a s'
           | (Throw e, s') => (Throw e, s')
           end.
Definition try_catch {A} (c : M A) (h : value -> M A) : M A :=
  fun s => match c s with
           | (Normal a, s') => (Normal a, s')
           | (Throw e, s') => h e s'
           end.
Definition gets {A} (f : state -> A) : M A := fun s => (Normal (f s), s).
Definition modify (f : state -> state) : M unit := fun s => (Normal tt, f s).

Notation "'let*' x ':=' c 'in' k" := (bind c (fun x => k))
  (at level 10, x name, c at level 100, k at level 200).
Notation "c ';;' k" := (bind c (fun _ => k))
  (at level 100, k at level 200, right associativity).

(** [v.k] as an expression: reading a property of [undefined] or [null]
    throws a TypeError. *)
Definition get_prop (v : value) (k : string) : M value :=
  match v with
  | VUndefined | VNull => throw (new_TypeError ("Cannot read properties of " +:+ typeof v))
  | _ => ret (read_prop v k)
  end.

(** ** The platform's timer facility *)

Definition setInterval (cb : closure) (dl : value) : M handle :=
  fun s => let h := next_handle s in
           (Normal h, set_armed (Pos.succ h) (<[h := mkTimer Interval cb dl]> (armed s)) s).

Definition setTimeout (cb : closure) (dl : value) : M handle :=
  fun s => let h := next_handle s in
           (Normal h, set_armed (Pos.succ h) (<[h := mkTimer Timeout cb dl]> (armed s)) s).

Definition clearInterval (h : handle) : M unit :=
  modify (fun s => set_armed (next_handle s) (delete h (armed s)) s).

Definition clearTimeout (h : handle) : M unit :=
  modify (fun s => set_armed (next_handle s) (delete h (armed s)) s).

(** The platform runs the callback of an armed timer; a one-shot timer is
    disarmed by its firing, a recurring one stays armed. *)
Definition take_due (h : handle) : M (option closure) :=
  fun s => match armed s !! h with
           | None => (Normal None, s)
           | Some t =>
               (Normal (Some (pt_callback t)),
                match pt_kind t with
                | Interval => s
                | Timeout => set_armed (next_handle s) (delete h (armed s)) s
                end)
           end.

(** ** The class *)

(** [Array.prototype.findIndex]: index of the first element satisfying the
    predicate, or -1. *)
Definition findIndex {A} (p : A -> bool) (l : list A) : Z :=
  match list_find (fun x => Is_true (p x)) l with
  | Some (i, _) => Z.of_nat i
  | None => -1
  end.

(** [this.timers.forEach(cb)], where [cb] updates the element it is given
    (the two callbacks of this class never throw). *)
Fixpoint forEach (cb : descriptor -> M descriptor) (l : list descriptor)
  : M (list descriptor) :=
  match l with
  | [] => ret []
  | d :: l' =>
      let* d' := cb d in
      let* r := forEach cb l' in
      ret (d' :: r)
  end.

Definition timers_forEach (cb : descriptor -> M descriptor) : M unit :=
  let* l := gets timers in
  let* l' := forEach cb l in
  modify (set_timers l').

(** [this.timers[idx]]; past the end the element is [undefined] and any use
    of it as a descriptor throws. *)
Definition timers_at (idx : Z) : M descriptor :=
  fun s => match timers s !! Z.to_nat idx with
           | Some d => (Normal d, s)
           | None => (Throw (new_TypeError "Cannot read properties of undefined"), s)
           end.

(** [this.logData.push(logObj)] *)
Definition logData_push (o : logObj) : M unit :=
  modify (fun s => array_write (logData s) (log_of s ++ [o]) s).

(** [_log(descriptor, out, error)]; a call with two arguments leaves [error]
    [undefined]. *)
Definition _log (descriptor : descriptor) (out error : value) : M unit :=
  let* now := gets clock in
  let logObj :=
    mkLogObj (name descriptor) (callbackParams descriptor) out now
      (if truthy error
       then Some (mkErrorObj (read_prop error "name")
                             (read_prop error "message")
                             (read_prop error "stack"))
       else None) in
  logData_push logObj.

(** [print()] returns [this.logData]: the reference, not a copy. *)
Definition print : M loc := gets logData.

Definition _findTimerIndex (timerName : value) : M Z :=
  if negb (String.eqb (typeof timerName) "string") || negb (truthy timerName)
  then throw (new_TypeError "Timer name must be string type!")
  else
    let* l := gets timers in
    ret (findIndex (fun descriptor => strict_equal (name descriptor) timerName) l).

Definition _startTimer (descriptor : descriptor) : M (option handle) :=
  match timerId descriptor with
  | None =>
      let safeJob :=
        mkClosure descriptor (job descriptor) (callbackParams descriptor) in
      if truthy (interval descriptor)
      then let* newTimerId := setInterval safeJob (delay descriptor) in
           ret (Some newTimerId)
      else let* newTimerId := setTimeout safeJob (delay descriptor) in
           ret (Some newTimerId)
  | Some _ => ret None
  end.

Definition _stopTimer (descriptor : descriptor) : M unit :=
  match timerId descriptor with
  | Some id =>
      if truthy (interval descriptor) then clearInterval id else clearTimeout id
  | None => ret tt
  end.

(** The text a template literal gives for a string. *)
Definition string_of (v : value) : string :=
  match v with
  | VStr s => s
  | _ => EmptyString
  end.

(** [add] returns [this], for chaining; here it returns nothing and the
    next call is made on the state it leaves.  The two writes
    [descriptor.callbackParams = callbackParams] and [descriptor.timerId =
    null] are the last two fields of the descriptor pushed; on the ordinary
    objects of this development they succeed. *)
Definition add (descriptor : value) (callbackParams : list value) : M unit :=
  let* started := gets allStarted in
  if started then throw (new_Error "Can not add new timer after start!") else
  let* nm := get_prop descriptor "name" in
  let* idx := _findTimerIndex nm in
  if 0 <=? idx
  then throw (new_Error ("Timer " +:+ dquote +:+ string_of nm +:+ dquote +:+ " already exists!"))
  else
  let* dl := get_prop descriptor "delay" in
  if negb (String.eqb (typeof dl) "number")
  then throw (new_TypeError "Timer delay must be numeric type!") else
  if less_than dl (VNum num_0) || greater_than dl (VNum num_5000)
  then throw (new_RangeError "Timer delay must be in range [0..5000]!") else
  let* iv := get_prop descriptor "interval" in
  if negb (String.eqb (typeof iv) "boolean")
  then throw (new_TypeError "Timer interval must be boolean type!") else
  let* jb := get_prop descriptor "job" in
  if negb (String.eqb (typeof jb) "function")
  then throw (new_TypeError "Timer job must be a function!") else
  modify (fun s => set_timers (timers s ++ [mkDescriptor nm dl iv jb callbackParams None]) s).

Definition pause (timerName : value) : M Z :=
  let* idx := _findTimerIndex timerName in
  (if 0 <=? idx
   then let* d := timers_at idx in
        _stopTimer d ;;
        modify (fun s => set_timers (<[Z.to_nat idx := set_timerId None d]> (timers s)) s)
   else ret tt) ;;
  ret idx.

Definition remove (timerName : value) : M unit :=
  let* idx := pause timerName in
  if 0 <=? idx
  then modify (fun s => set_timers (delete (Z.to_nat idx) (timers s)) s)
  else ret tt.

(** The callbacks [start] and [stop] give to [forEach]. *)
Definition start_each : descriptor -> M descriptor := fun descriptor =>
  let* id := _startTimer descriptor in
  ret (set_timerId id descriptor).

Definition stop_each : descriptor -> M descriptor := fun descriptor =>
  _stopTimer descriptor ;;
  ret (set_timerId None descriptor).

Definition start : M unit :=
  let* started := gets allStarted in
  (if negb started then timers_forEach start_each else ret tt) ;;
  modify (set_allStarted true).

Definition stop : M unit :=
  let* started := gets allStarted in
  (if started then timers_forEach stop_each else ret tt) ;;
  modify (set_allStarted false).

Definition resume (timerName : value) : M Z :=
  let* idx := _findTimerIndex timerName in
  (if 0 <=? idx
   then let* d := timers_at idx in
        let* id := _startTimer d in
        modify (fun s => set_timers (<[Z.to_nat idx := set_timerId id d]> (timers s)) s)
   else ret tt) ;;
  ret idx.

(** [remove] as the specification words it: [pause(name)], then, if the index
    was found, the descriptor at that index is deleted from the registry. *)
Definition delete_at (i : nat) (l : list descriptor) : list descriptor :=
  take i l ++ drop (S i) l.

Definition remove_spec (timerName : value) : M unit :=
  fun s => match pause timerName s with
           | (Normal idx, s') =>
               (Normal tt,
                if Z.ltb idx 0 then s'
                else set_timers (delete_at (Z.to_nat idx) (timers s')) s')
           | (Throw e, s') => (Throw e, s')
           end.

Section Jobs.

(** What calling the function [f] on the given arguments does: it returns a
    value or throws one. *)
Variable call : fn_id -> list value -> completion value.

(** [job(...callbackParams)]; calling what is not a function throws. *)
Definition invoke (f : value) (args : list value) : completion value :=
  match f with
  | VObj (Some id) _ => call id args
  | _ => Throw (new_TypeError "job is not a function")
  end.

(** The body of [safeJob]: [result] is still [null] when the call throws. *)
Definition safeJob (c : closure) : M unit :=
  match invoke (sj_job c) (sj_callbackParams c) with
  | Normal result =>
      try_catch (_log (sj_descriptor c) result VUndefined)
                (fun error => _log (sj_descriptor c) result error)
  | Throw error => _log (sj_descriptor c) VNull error
  end.

(** The platform fires timer [h]. *)
Definition fire (h : handle) : M unit :=
  let* due := take_due h in
  match due with
  | Some c => safeJob c
  | None => ret tt
  end.

(** Everything that can happen to a manager: calls of its methods by the
    caller, firings of its timers by the platform, and time passing. *)
Inductive operation :=
| Add (descriptor : value) (callbackParams : list value)
| Remove (timerName : value)
| Start
| Stop
| Pause (timerName : value)
| Resume (timerName : value)
| Print
| Fire (h : handle)
| Tick.

Definition run (op : operation) : M unit :=
  match op with
  | Add d ps => add d ps
  | Remove n => remove n
  | Start => start
  | Stop => stop
  | Pause n => pause n ;; ret tt
  | Resume n => resume n ;; ret tt
  | Print => print ;; ret tt
  | Fire h => fire h
  | Tick => modify (fun s => set_clock (clock s + 1) s)
  end.

Definition exec (op : operation) (s : state) : state := snd (run op s).

Definition exec_all (ops : list operation) (s : state) : state :=
  foldl (fun s op => exec op s) s ops.

Inductive reachable : state -> Prop :=
| reachable_new : reachable new_TimersManager
| reachable_step s op : reachable s -> reachable (exec op s).

End Jobs.

(** ** Predicates used in the statements *)

(** The timer [_startTimer] arms for a descriptor. *)
Definition closure_of (d : descriptor) : closure :=
  mkClosure d (job d) (callbackParams d).

Definition timer_of (d : descriptor) : platform_timer :=
  mkTimer (if truthy (interval d) then Interval else Timeout)
          (closure_of d) (delay d).

(** Every armed timer was armed by [_startTimer] for some descriptor, whose
    handle was absent at that moment. *)
Definition armed_wf (s : state) : Prop :=
  forall h t, armed s !! h = Some t ->
    exists d, t = timer_of d /\ timerId d = None.

(** The armed timer [t] runs the job of descriptor [d]: its callback holds
    [d], whose handle was absent when the callback was built. *)
Definition timer_runs (t : platform_timer) (d : descriptor) : Prop :=
  sj_descriptor (pt_callback t) = set_timerId None d.

(** The invariant of section 3 of the specification: a descriptor of the
    registry whose handle is absent has no armed platform timer. *)
Definition absent_handle_disarmed (s : state) : Prop :=
  forall d, d ∈ timers s -> timerId d = None ->
    forall h t, armed s !! h = Some t -> ~ timer_runs t d.

(** [x] lies in the closed interval [[0, 5000]], by the IEEE order. *)
Definition in_range (x : spec_float) : bool :=
  SFleb num_0 x && SFleb x num_5000.

(** The descriptor [add] stores for the object [v]: the four properties it
    read, the bound arguments, and an absent handle. *)
Definition descriptor_of (v : value) (ps : list value) : descriptor :=
  mkDescriptor (read_prop v "name") (read_prop v "delay")
               (read_prop v "interval") (read_prop v "job") ps None.

(** A descriptor object as the data model of the specification wants it: a
    non-empty string [name] that none of the descriptors in [registered] has,
    a numeric [delay] in [[0, 5000]], a boolean [interval], a callable
    [job]. *)
Definition valid_descriptor (registered : list descriptor) (v : value) : Prop :=
  (exists n, read_prop v "name" = VStr n /\ n <> EmptyString
             /\ forall d, d ∈ registered -> name d <> VStr n)
  /\ (exists x, read_prop v "delay" = VNum x /\ in_range x = true)
  /\ (exists b, read_prop v "interval" = VBool b)
  /\ (exists f fps, read_prop v "job" = VObj (Some f) fps).

(** The log only grows at its end, in the same array. *)
Definition log_extends (s s' : state) : Prop :=
  logData s' = logData s /\ exists suffix, log_of s' = log_of s ++ suffix.

(** Neither the log array nor any other array is touched. *)
Definition log_same (s s' : state) : Prop :=
  logData s' = logData s /\ arrays s' = arrays s.

(** The activation flag is the same in the two states. *)
Definition flag_same (s s' : state) : Prop := allStarted s' = allStarted s.

(** Only the platform's timer table differs between the two states. *)
Definition only_platform (s s' : state) : Prop :=
  timers s' = timers s /\ allStarted s' = allStarted s
  /\ logData s' = logData s /\ arrays s' = arrays s /\ clock s' = clock s.

(** The entry [_log] pushes. *)
Definition log_entry (d : descriptor) (out error : value) (now : Z) : logObj :=
  mkLogObj (name d) (callbackParams d) out now
    (if truthy error
     then Some (mkErrorObj (read_prop error "name") (read_prop error "message")
                           (read_prop error "stack"))
     else None).

(** The descriptor has the name [n]. *)
Definition has_name (n : string) (d : descriptor) : Prop := name d = VStr n.

(** The class of a thrown error object: its [name]. *)
Definition error_class (e : value) : value := read_prop e "name".

(** [d'] is [d] with a handle under which the platform holds the timer for
    [d]. *)
Definition armed_as (s : state) (d d' : descriptor) : Prop :=
  exists h, d' = set_timerId (Some h) d /\ armed s !! h = Some (timer_of d).

Definition keeps_armed_wf (s s' : state) : Prop := armed_wf s -> armed_wf s'.

(** A computation is stable for [R] when [R] relates the state before to the
    state after, however it completes. *)
Definition stable (R : state -> state -> Prop) {A} (c : M A) : Prop :=
  forall s, R s (snd (c s)).

(** ** Elementary changes of the state *)

(** A registered descriptor as [add] lets it through: a non-empty string
    name, a numeric delay on which neither comparison of the range check
    holds, a boolean interval flag, a callable job. *)
Definition well_typed (d : descriptor) : Prop :=
  (exists n, name d = VStr n /\ n <> EmptyString)
  /\ (exists x, delay d = VNum x)
  /\ less_than (delay d) (VNum num_0) = false
  /\ greater_than (delay d) (VNum num_5000) = false
  /\ (exists b, interval d = VBool b)
  /\ (exists f fps, job d = VObj (Some f) fps).

(** The object [v] passes all the checks [add] makes against the registry
    [registered]. *)
Definition accepted (registered : list descriptor) (v : value) : Prop :=
  well_typed (descriptor_of v [])
  /\ forall d, d ∈ registered -> name d <> read_prop v "name".

(** [clearInterval]/[clearTimeout] of a stored handle, nothing for [null]. *)
Definition disarm (id : option handle) (s : state) : state :=
  match id with
  | Some h => set_armed (next_handle s) (delete h (armed s)) s
  | None => s
  end.

(** [setInterval]/[setTimeout] of the timer for [d] under the next handle. *)
Definition arm (d : descriptor) (s : state) : state :=
  set_armed (Pos.succ (next_handle s))
            (<[next_handle s := timer_of d]> (armed s)) s.

(** The elementary changes the operations are made of. *)
Inductive change : state -> state -> Prop :=
| change_flag b s : change s (set_allStarted b s)
| change_clock t s : change s (set_clock t s)
| change_append v ps s :
    accepted (timers s) v ->
    change s (set_timers (timers s ++ [descriptor_of v ps]) s)
| change_delete i s : change s (set_timers (delete i (timers s)) s)
| change_clear i d s :
    timers s !! i = Some d ->
    change s (set_timers (<[i := set_timerId None d]> (timers s))
                         (disarm (timerId d) s))
| change_forget i d s :
    timers s !! i = Some d ->
    change s (set_timers (<[i := set_timerId None d]> (timers s)) s)
| change_arm i d s :
    timers s !! i = Some d -> timerId d = None ->
    change s (set_timers (<[i := set_timerId (Some (next_handle s)) d]> (timers s))
                         (arm d s))
| change_expire h t s :
    armed s !! h = Some t -> pt_kind t = Timeout ->
    change s (set_armed (next_handle s) (delete h (armed s)) s)
| change_log o s : change s (array_write (logData s) (log_of s ++ [o]) s).

(** The registry is well formed: names are pairwise distinct and every
    descriptor is well typed. *)
Definition registry_wf (s : state) : Prop :=
  NoDup (name <$> timers s) /\ Forall well_typed (timers s).

(** The handles are well formed: every handle in use, armed or stored, was
    handed out before; a stored handle that is armed is armed for the
    descriptor that stores it; no handle is stored twice. *)
Definition handles_wf (s : state) : Prop :=
  (forall h t, armed s !! h = Some t -> (h < next_handle s)%positive)
  /\ (forall i d h, timers s !! i = Some d -> timerId d = Some h ->
        (h < next_handle s)%positive
        /\ forall t, armed s !! h = Some t -> t = timer_of (set_timerId None d))
  /\ (forall i j d d' h, timers s !! i = Some d -> timers s !! j = Some d' ->
        timerId d = Some h -> timerId d' = Some h -> i = j).

(** A name [pause], [resume] and [remove] accept: a non-empty string. *)
Definition valid_name (v : value) : Prop :=
  exists n, v = VStr n /\ n <> EmptyString.

(** [stop]'s loop on the platform: the stored handles are cleared one after
    the other. *)
Definition disarm_all (l : list descriptor) (s : state) : state :=
  foldl (fun s d => disarm (timerId d) s) s l.

(** The entry a firing of the callback [c] logs at time [now]. *)
Definition job_entry (call : fn_id -> list value -> completion value)
    (c : closure) (now : Z) : logObj :=
  match invoke call (sj_job c) (sj_callbackParams c) with
  | Normal v => log_entry (sj_descriptor c) v VUndefined now
  | Throw e => log_entry (sj_descriptor c) VNull e now
  end.

(** The state after the platform has taken the due timer [h] off its table
    (a one-shot timer) or left it there (a recurring one). *)
Definition expire (h : handle) (t : platform_timer) (s : state) : state :=
  match pt_kind t with
  | Interval => s
  | Timeout => set_armed (next_handle s) (delete h (armed s)) s
  end.

(** The operation is a firing of a timer that is armed. *)
Definition fires (op : operation) (s : state) : bool :=
  match op with
  | Fire h => bool_decide (is_Some (armed s !! h))
  | _ => false
  end.

(** The number of such firings along a run. *)
Fixpoint count_firings (call : fn_id -> list value -> completion value)
    (ops : list operation) (s : state) : nat :=
  match ops with
  | [] => 0
  | op :: ops' =>
      ((if fires op s then 1 else 0) + count_firings call ops' (exec call op s))%nat
  end.

(** Every armed timer was armed for a well-typed descriptor: it is recurring
    exactly when the descriptor's interval flag is [true], and its job is a
    function. *)
Definition armed_typed (s : state) : Prop :=
  forall h t, armed s !! h = Some t -> exists d, t = timer_of d /\ well_typed d.

Definition state_wf (s : state) : Prop :=
  registry_wf s /\ handles_wf s /\ armed_typed s.

(** What [start]'s loop makes of a descriptor [d]: armed under a handle not
    handed out before [s0] if its handle was absent, its handle replaced by
    [null] otherwise. *)
Definition started_as (s0 s' : state) (d d' : descriptor) : Prop :=
  match timerId d with
  | None =>
      exists h, d' = set_timerId (Some h) d
        /\ armed s' !! h = Some (timer_of d)
        /\ (next_handle s0 <= h)%positive
  | Some _ => d' = set_timerId None d
  end.

(** A log entry as the wrapper writes it: under a non-empty string name, and
    with a [null] output whenever it carries an error. *)
Definition entry_ok (o : logObj) : Prop :=
  (exists n, log_name o = VStr n /\ n <> EmptyString)
  /\ (log_error o <> None -> log_out o = VNull).

(** A recurring descriptor that stores a handle has a timer armed under it. *)
Definition recurring_armed (s : state) : Prop :=
  forall i d h, timers s !! i = Some d -> timerId d = Some h ->
    interval d = VBool true -> is_Some (armed s !! h).

(** ** Sample data for the concrete runs *)

(** A sample of jobs: function 0 returns a string, function 1 throws an error
    object, every other function throws [null]. *)
Definition sample_call (f : fn_id) (args : list value) : completion value :=
  match f with
  | 0%nat => Normal (VStr "done")
  | 1%nat => Throw (VObj None [("name", VStr "Error");
                               ("message", VStr "We have a problem!");
                               ("stack", VStr "Error: We have a problem!")])
  | _ => Throw VNull
  end.

Definition num_1000 : spec_float := S754_finite false 8796093022208000 (-43).
Definition num_1200 : spec_float := S754_finite false 5277655813324800 (-42).
Definition num_500 : spec_float := S754_finite false 8796093022208000 (-44).
Definition num_5001 : spec_float := S754_finite false 5498657650507776 (-40).
Definition num_1 : spec_float := S754_finite false 4503599627370496 (-52).
Definition num_2 : spec_float := S754_finite false 4503599627370496 (-51).
Definition num_22 : spec_float := S754_finite false 6192449487634432 (-48).
Definition num_33 : spec_float := S754_finite false 4644337115725824 (-47).

Definition timer_object (n : string) (dl : spec_float) (iv : bool) (f : fn_id) : value :=
  VObj None [("name", VStr n); ("delay", VNum dl);
             ("interval", VBool iv); ("job", VObj (Some f) [])].

(** A recurring timer [t1] whose job returns. *)
Definition t1_descriptor : value := timer_object "t1" num_1000 true 0%nat.

(** A one-shot timer [t5] whose job throws an error object. *)
Definition t5_descriptor : value := timer_object "t5" num_0 false 1%nat.

(** A one-shot timer [t6] whose job throws [null]. *)
Definition t6_descriptor : value := timer_object "t6" num_500 false 2%nat.

(** A timer whose delay is NaN. *)
Definition nan_descriptor : value := timer_object "t" S754_nan true 0%nat.

Definition registered_state : state :=
  exec_all sample_call [Add t1_descriptor []] new_TimersManager.

Definition started_state : state :=
  exec_all sample_call [Add t1_descriptor []; Start] new_TimersManager.

Definition failing_state : state :=
  exec_all sample_call [Add t5_descriptor [VBool true]; Start] new_TimersManager.

Definition null_throw_state : state :=
  exec_all sample_call [Add t6_descriptor [VBool true]; Start] new_TimersManager.

Definition logged_state : state :=
  exec_all sample_call
    [Add t1_descriptor []; Resume (VStr "t1"); Fire 1%positive]
    new_TimersManager.

(** Two timers registered and started: the recurring [t1] under handle 1,
    the one-shot [t5] under handle 2. *)
Definition two_timers_state : state :=
  exec_all sample_call [Add t1_descriptor []; Add t5_descriptor [VBool true]; Start]
    new_TimersManager.

(** The one-shot timer [t5] has fired: its descriptor holds the stale
    handle 1. *)
Definition fired_state : state :=
  exec_all sample_call [Add t5_descriptor [VBool true]; Start; Fire 1%positive]
    new_TimersManager.

(** The calls at the end of hw-3.js, up to the last [resume].  The five jobs
    are five functions, known here as 11 to 15; none of them runs during
    these calls, which fire no timer. *)
Definition source_script : list operation :=
  [Add (timer_object "t1" num_1000 true 11%nat) [];
   Add (timer_object "t2" num_1000 false 12%nat) [VNum num_1; VNum num_2];
   Add (timer_object "t3" num_500 true 13%nat) [];
   Add (timer_object "t4" num_500 true 14%nat) [VNum num_22; VNum num_33];
   Add (timer_object "t5" num_1200 false 15%nat) [];
   Start;
   Pause (VStr "t2"); Pause (VStr "t1"); Resume (VStr "t2");
   Remove (VStr "t3"); Resume (VStr "t1")].

(** [resume] before [start], and [resume] of a timer [start] has armed. *)
Definition leak_script : list operation :=
  [Add t1_descriptor []; Resume (VStr "t1"); Start].

Definition double_arm_script : list operation :=
  [Add t1_descriptor []; Start; Resume (VStr "t1")].

(** ** Proof rules for stability *)

Section Stable.

Variable R : state -> state -> Prop.
Hypothesis R_refl : forall s, R s s.
Hypothesis R_trans : forall s1 s2 s3, R s1 s2 -> R s2 s3 -> R s1 s3.

Lemma stable_ret {A} (a : A) : stable R (ret a).
Proof. intros s. apply R_refl. Qed.

Lemma stable_throw {A} (e : value) : stable R (@throw A e).
Proof. intros s. apply R_refl. Qed.

Lemma stable_gets {A} (f : state -> A) : stable R (gets f).
Proof. intros s. apply R_refl. Qed.

Lemma stable_modify (f : state -> state) :
  (forall s, R s (f s)) -> stable R (modify f).
Proof. intros H s. apply H. Qed.

Lemma stable_bind {A B} (c : M A) (k : A -> M B) :
  stable R c -> (forall a, stable R (k a)) -> stable R (bind c k).
Proof.
  intros Hc Hk s. unfold bind.
  specialize (Hc s). destruct (c s) as [[a|e] s1]; simpl in *.
  - eapply R_trans; [exact Hc | apply Hk].
  - exact Hc.
Qed.

Lemma stable_try_catch {A} (c : M A) (h : value -> M A) :
  stable R c -> (forall e, stable R (h e)) -> stable R (try_catch c h).
Proof.
  intros Hc Hh s. unfold try_catch.
  specialize (Hc s). destruct (c s) as [[a|e] s1]; simpl in *.
  - exact Hc.
  - eapply R_trans; [exact Hc | apply Hh].
Qed.

Lemma stable_get_prop v k : stable R (get_prop v k).
Proof. destruct v; first [apply stable_throw | apply stable_ret]. Qed.

Lemma stable_forEach cb l :
  (forall d, stable R (cb d)) -> stable R (forEach cb l).
Proof.
  intros Hcb. induction l as [|d l IH]; simpl.
  - apply stable_ret.
  - apply stable_bind; [apply Hcb | intros d'].
    apply stable_bind; [exact IH | intros r]. apply stable_ret.
Qed.

Lemma stable_timers_at idx : stable R (timers_at idx).
Proof. intros s. unfold timers_at. destruct (timers s !! _); apply R_refl. Qed.

(** What the class does to the state, piece by piece. *)
Hypothesis R_set_timers : forall l s, R s (set_timers l s).
Hypothesis R_set_allStarted : forall b s, R s (set_allStarted b s).
Hypothesis R_set_clock : forall t s, R s (set_clock t s).
Hypothesis R_startTimer : forall d, stable R (_startTimer d).
Hypothesis R_stopTimer : forall d, stable R (_stopTimer d).
Hypothesis R_take_due : forall h, stable R (take_due h).

Lemma stable_findTimerIndex n : stable R (_findTimerIndex n).
Proof.
  unfold _findTimerIndex. destruct (_ || _).
  - apply stable_throw.
  - apply stable_bind; [apply stable_gets | intros l; apply stable_ret].
Qed.

Lemma stable_timers_forEach cb :
  (forall d, stable R (cb d)) -> stable R (timers_forEach cb).
Proof.
  intros Hcb. unfold timers_forEach.
  apply stable_bind; [apply stable_gets | intros l].
  apply stable_bind; [by apply stable_forEach | intros l'].
  apply stable_modify. intros s. apply R_set_timers.
Qed.

Lemma stable_print : stable R print.
Proof. apply stable_gets. Qed.

Lemma stable_add d ps : stable R (add d ps).
Proof.
  unfold add.
  apply stable_bind; [apply stable_gets | intros started].
  destruct started; [apply stable_throw|].
  apply stable_bind; [apply stable_get_prop | intros nm].
  apply stable_bind; [apply stable_findTimerIndex | intros idx].
  destruct (0 <=? idx); [apply stable_throw|].
  apply stable_bind; [apply stable_get_prop | intros dl].
  destruct (negb _); [apply stable_throw|].
  destruct (_ || _); [apply stable_throw|].
  apply stable_bind; [apply stable_get_prop | intros iv].
  destruct (negb _); [apply stable_throw|].
  apply stable_bind; [apply stable_get_prop | intros jb].
  destruct (negb _); [apply stable_throw|].
  apply stable_modify. intros s. apply R_set_timers.
Qed.

Lemma stable_pause n : stable R (pause n).
Proof.
  unfold pause.
  apply stable_bind; [apply stable_findTimerIndex | intros idx].
  apply stable_bind; [|intros; apply stable_ret].
  destruct (0 <=? idx); [|apply stable_ret].
  apply stable_bind; [apply stable_timers_at | intros d].
  apply stable_bind; [apply R_stopTimer | intros _].
  apply stable_modify. intros s. apply R_set_timers.
Qed.

Lemma stable_resume n : stable R (resume n).
Proof.
  unfold resume.
  apply stable_bind; [apply stable_findTimerIndex | intros idx].
  apply stable_bind; [|intros; apply stable_ret].
  destruct (0 <=? idx); [|apply stable_ret].
  apply stable_bind; [apply stable_timers_at | intros d].
  apply stable_bind; [apply R_startTimer | intros id].
  apply stable_modify. intros s. apply R_set_timers.
Qed.

Lemma stable_remove n : stable R (remove n).
Proof.
  unfold remove.
  apply stable_bind; [apply stable_pause | intros idx].
  destruct (0 <=? idx); [|apply stable_ret].
  apply stable_modify. intros s. apply R_set_timers.
Qed.

Lemma stable_start : stable R start.
Proof.
  unfold start.
  apply stable_bind; [apply stable_gets | intros started].
  apply stable_bind.
  - destruct (negb started); [|apply stable_ret].
    apply stable_timers_forEach. intros d. unfold start_each.
    apply stable_bind; [apply R_startTimer | intros id; apply stable_ret].
  - intros _. apply stable_modify. intros s. apply R_set_allStarted.
Qed.

Lemma stable_stop : stable R stop.
Proof.
  unfold stop.
  apply stable_bind; [apply stable_gets | intros started].
  apply stable_bind.
  - destruct started; [|apply stable_ret].
    apply stable_timers_forEach. intros d. unfold stop_each.
    apply stable_bind; [apply R_stopTimer | intros _; apply stable_ret].
  - intros _. apply stable_modify. intros s. apply R_set_allStarted.
Qed.

Section StableJobs.

Variable call : fn_id -> list value -> completion value.
Hypothesis R_log : forall d out error, stable R (_log d out error).

Lemma stable_safeJob c : stable R (safeJob call c).
Proof.
  unfold safeJob. destruct (invoke call _ _) as [v|e].
  - apply stable_try_catch; auto.
  - apply R_log.
Qed.

Lemma stable_fire h : stable R (fire call h).
Proof.
  unfold fire. apply stable_bind; [apply R_take_due | intros [c|]].
  - apply stable_safeJob.
  - apply stable_ret.
Qed.

Lemma stable_run op : stable R (run call op).
Proof.
  destruct op; simpl.
  - apply stable_add.
  - apply stable_remove.
  - apply stable_start.
  - apply stable_stop.
  - apply stable_bind; [apply stable_pause | intros; apply stable_ret].
  - apply stable_bind; [apply stable_resume | intros; apply stable_ret].
  - apply stable_bind; [apply stable_print | intros; apply stable_ret].
  - apply stable_fire.
  - apply stable_modify. intros s. apply R_set_clock.
Qed.

End StableJobs.

End Stable.

(** ** The log under the operations *)

Lemma stable_weaken (R R' : state -> state -> Prop) {A} (c : M A) :
  (forall s s', R s s' -> R' s s') -> stable R c -> stable R' c.
Proof. intros HR Hc s. apply HR, Hc. Qed.

Lemma log_same_refl s : log_same s s.
Proof. by split. Qed.

Lemma log_same_trans s1 s2 s3 : log_same s1 s2 -> log_same s2 s3 -> log_same s1 s3.
Proof. intros [H1 H2] [H3 H4]. split; congruence. Qed.

Lemma log_same_log_of s s' : log_same s s' -> log_of s' = log_of s.
Proof. intros [H1 H2]. unfold log_of, array_read. by rewrite H1, H2. Qed.

Lemma log_same_extends s s' : log_same s s' -> log_extends s s'.
Proof.
  intros H. split; [apply H|]. exists []. rewrite app_nil_r.
  by apply log_same_log_of.
Qed.

Lemma log_extends_refl s : log_extends s s.
Proof. apply log_same_extends, log_same_refl. Qed.

Lemma log_extends_trans s1 s2 s3 :
  log_extends s1 s2 -> log_extends s2 s3 -> log_extends s1 s3.
Proof.
  intros [H1 [x Hx]] [H2 [y Hy]]. split; [congruence|].
  exists (x ++ y). by rewrite Hy, Hx, app_assoc.
Qed.

Lemma log_same_startTimer d : stable log_same (_startTimer d).
Proof.
  intros s. unfold _startTimer. destruct (timerId d); [by split|].
  destruct (truthy (interval d)); by split.
Qed.

Lemma log_same_stopTimer d : stable log_same (_stopTimer d).
Proof.
  intros s. unfold _stopTimer. destruct (timerId d); [|by split].
  destruct (truthy (interval d)); by split.
Qed.

Lemma log_same_take_due h : stable log_same (take_due h).
Proof.
  intros s. unfold take_due. destruct (armed s !! h) as [t|]; [|by split].
  destruct (pt_kind t); by split.
Qed.

Lemma log_of_array_write s contents :
  log_of (array_write (logData s) contents s) = contents.
Proof. unfold log_of, array_read, array_write. simpl. by rewrite lookup_insert_eq. Qed.

Lemma _log_eq d out error s :
  _log d out error s =
  (Normal tt,
   array_write (logData s) (log_of s ++ [log_entry d out error (clock s)]) s).
Proof. reflexivity. Qed.

Lemma log_extends_log d out error : stable log_extends (_log d out error).
Proof.
  intros s. rewrite _log_eq. simpl. split; [reflexivity|].
  eexists. apply log_of_array_write.
Qed.

Lemma pause_log_same n : stable log_same (pause n).
Proof.
  apply stable_pause;
    first [ exact log_same_refl | exact log_same_trans | exact log_same_stopTimer
          | intros; by split ].
Qed.

Lemma resume_log_same n : stable log_same (resume n).
Proof.
  apply stable_resume;
    first [ exact log_same_refl | exact log_same_trans | exact log_same_startTimer
          | intros; by split ].
Qed.

Lemma remove_log_same n : stable log_same (remove n).
Proof.
  apply stable_remove;
    first [ exact log_same_refl | exact log_same_trans | exact log_same_stopTimer
          | intros; by split ].
Qed.

(** ** The order of doubles *)

Lemma SFcompare_antisym x y : SFcompare y x = CompOpp <$> SFcompare x y.
Proof.
  destruct x as [sx|sx| |sx mx ex], y as [sy|sy| |sy my ey]; simpl;
    try reflexivity; try (by destruct sx); try (by destruct sy);
    try (by destruct sx, sy).
  destruct sx, sy; simpl; try reflexivity;
    rewrite (Z.compare_antisym ey ex);
    destruct (ey ?= ex)%Z; simpl; try reflexivity;
    change (Pos.compare_cont Eq my mx) with (my ?= mx)%positive;
    change (Pos.compare_cont Eq mx my) with (mx ?= my)%positive;
    rewrite (Pos.compare_antisym my mx); by destruct (my ?= mx)%positive.
Qed.

Lemma SFcompare_is_Some x y :
  x <> S754_nan -> y <> S754_nan -> is_Some (SFcompare x y).
Proof. destruct x, y; simpl; intros; by eauto. Qed.

Lemma SFltb_negb_SFleb x y :
  x <> S754_nan -> y <> S754_nan -> SFltb y x = negb (SFleb x y).
Proof.
  intros Hx Hy. unfold SFltb, SFleb. rewrite (SFcompare_antisym x y).
  destruct (SFcompare_is_Some x y Hx Hy) as [c ->]. by destruct c.
Qed.

(** The guard of [add] on a numeric delay is the negation of membership in
    [[0, 5000]], except on NaN, which no comparison holds of. *)
Lemma range_guard_not_nan x :
  x <> S754_nan ->
  less_than (VNum x) (VNum num_0) || greater_than (VNum x) (VNum num_5000)
  = negb (in_range x).
Proof.
  intros Hx. unfold greater_than, less_than, in_range.
  rewrite (SFltb_negb_SFleb num_0 x), (SFltb_negb_SFleb x num_5000) by done.
  by rewrite negb_andb.
Qed.

Lemma range_guard_nan :
  less_than (VNum S754_nan) (VNum num_0)
  || greater_than (VNum S754_nan) (VNum num_5000) = false
  /\ in_range S754_nan = false.
Proof. by split. Qed.

(** ** Name resolution *)

Lemma strict_equal_string v n : strict_equal v (VStr n) = true <-> v = VStr n.
Proof.
  destruct v; simpl; try (split; [done | intros [=]]).
  rewrite String.eqb_eq. split; [by intros -> | by intros [= ->]].
Qed.

Lemma findIndex_name_found n (l : list descriptor) i d :
  l !! i = Some d -> has_name n d ->
  (forall j d', l !! j = Some d' -> (j < i)%nat -> ~ has_name n d') ->
  findIndex (fun d => strict_equal (name d) (VStr n)) l = Z.of_nat i.
Proof.
  intros Hl Hn Hmin. unfold findIndex.
  destruct (list_find _ l) as [[j d']|] eqn:Hfind.
  - apply list_find_Some in Hfind as (Hj & Hp & Hfirst).
    apply Is_true_true, strict_equal_string in Hp.
    destruct (Nat.lt_trichotomy j i) as [Hlt|[->|Hgt]]; [|done|].
    + by destruct (Hmin j d').
    + destruct (Hfirst i d Hl Hgt).
      by apply Is_true_true, strict_equal_string.
  - eapply list_find_None, Forall_lookup in Hfind; [|exact Hl].
    destruct Hfind. by apply Is_true_true, strict_equal_string.
Qed.

Lemma findIndex_name_absent n (l : list descriptor) :
  (forall d, d ∈ l -> ~ has_name n d) ->
  findIndex (fun d => strict_equal (name d) (VStr n)) l = -1.
Proof.
  intros Hno. unfold findIndex.
  destruct (list_find _ l) as [[j d']|] eqn:Hfind; [|done].
  apply list_find_Some in Hfind as (Hj & Hp & _).
  apply Is_true_true, strict_equal_string in Hp.
  destruct (Hno d'); [|done]. by eapply list_elem_of_lookup_2.
Qed.

(** Some descriptor has the name: then there is a first one. *)
Lemma first_with_name n (l : list descriptor) :
  (exists d, d ∈ l /\ has_name n d) ->
  exists i d, l !! i = Some d /\ has_name n d
    /\ forall j d', l !! j = Some d' -> (j < i)%nat -> ~ has_name n d'.
Proof.
  intros (d & Hin & Hn).
  destruct (list_find (fun d => Is_true (strict_equal (name d) (VStr n))) l)
    as [[i d']|] eqn:Hfind.
  - apply list_find_Some in Hfind as (Hi & Hp & Hfirst).
    exists i, d'. split; [done|]. split.
    + by apply Is_true_true, strict_equal_string in Hp.
    + intros j d'' Hj Hlt Hn'. destruct (Hfirst j d'' Hj Hlt).
      by apply Is_true_true, strict_equal_string.
  - eapply list_find_None, Forall_forall in Hfind; [|exact Hin].
    destruct Hfind. by apply Is_true_true, strict_equal_string.
Qed.

Lemma _findTimerIndex_string n s :
  n <> EmptyString ->
  _findTimerIndex (VStr n) s
  = (Normal (findIndex (fun d => strict_equal (name d) (VStr n)) (timers s)), s).
Proof.
  intros Hn. unfold _findTimerIndex. simpl.
  apply String.eqb_neq in Hn. by rewrite Hn.
Qed.

(** ** Registration *)

(** C2. A call of [add] that throws, whatever the error (the state error of
    an activated manager, the duplicate-name error, a type error for the
    name, delay, interval or job, the range error for the delay), leaves the
    registry as it was, writes nothing to the log, and in fact leaves the
    whole state untouched; the error is an [Error], a [TypeError] or a
    [RangeError]. *)
Theorem add_failure_changes_nothing
    (descriptor : value) (callbackParams : list value) (s s' : state) (e : value) :
  add descriptor callbackParams s = (Throw e, s') ->
  timers s' = timers s /\ log_of s' = log_of s /\ s' = s
  /\ (error_class e = VStr "Error" \/ error_class e = VStr "TypeError"
      \/ error_class e = VStr "RangeError").
Proof.
  unfold add, get_prop, _findTimerIndex.
  unfold bind, gets, throw, ret, modify. intros H.
  repeat (case_match; simplify_eq/=); auto 10.
Qed.

Lemma add_activated descriptor callbackParams s :
  allStarted s = true ->
  add descriptor callbackParams s
  = (Throw (new_Error "Can not add new timer after start!"), s).
Proof. intros H. unfold add, bind, gets. by rewrite H. Qed.

Lemma in_range_not_nan x : in_range x = true -> x <> S754_nan.
Proof. by intros H ->. Qed.

Lemma get_prop_read v k w s :
  read_prop v k = w -> w <> VUndefined -> get_prop v k s = (Normal w, s).
Proof. intros <- Hw. by destruct v. Qed.

Lemma add_valid (v : value) (ps : list value) (s : state) :
  allStarted s = false ->
  valid_descriptor (timers s) v ->
  add v ps s = (Normal tt, set_timers (timers s ++ [descriptor_of v ps]) s).
Proof.
  intros Hns ((n & Hname & Hn & Hfresh) & (x & Hdelay & Hx) & (b & Hiv)
              & (f & fps & Hjob)).
  unfold add, bind, gets. rewrite Hns. simpl.
  rewrite (get_prop_read v "name" (VStr n)) by done.
  rewrite _findTimerIndex_string by done.
  rewrite findIndex_name_absent by (intros d Hd; by apply Hfresh).
  simpl.
  rewrite (get_prop_read v "delay" (VNum x)) by done. simpl.
  rewrite range_guard_not_nan by (by apply in_range_not_nan).
  rewrite Hx. simpl.
  rewrite (get_prop_read v "interval" (VBool b)) by done. simpl.
  rewrite (get_prop_read v "job" (VObj (Some f) fps)) by done. simpl.
  unfold modify, descriptor_of. by rewrite Hname, Hdelay, Hiv, Hjob.
Qed.

(** ** Global start and stop *)

Lemma only_platform_refl s : only_platform s s.
Proof. by repeat split. Qed.

Lemma only_platform_trans s1 s2 s3 :
  only_platform s1 s2 -> only_platform s2 s3 -> only_platform s1 s3.
Proof.
  intros (?&?&?&?&?) (?&?&?&?&?). repeat split; congruence.
Qed.

Lemma _stopTimer_eq d s :
  exists s', _stopTimer d s = (Normal tt, s') /\ only_platform s s'
    /\ (timerId d = None -> s' = s).
Proof.
  unfold _stopTimer. destruct (timerId d) as [id|].
  - destruct (truthy (interval d)); eexists; (split; [reflexivity|]);
      by repeat split.
  - exists s. by repeat split.
Qed.

Lemma forEach_stop (l : list descriptor) (s : state) :
  exists s', forEach stop_each l s = (Normal (set_timerId None <$> l), s')
    /\ only_platform s s'.
Proof.
  revert s. induction l as [|d l IH]; intros s; simpl.
  - exists s. split; [reflexivity | apply only_platform_refl].
  - unfold bind at 1. unfold stop_each at 1. unfold bind at 1.
    destruct (_stopTimer_eq d s) as (s1 & -> & H1 & _). simpl.
    unfold bind at 1.
    destruct (IH s1) as (s2 & -> & H2).
    exists s2. split; [reflexivity | by eapply only_platform_trans].
Qed.

(** [_startTimer] on a descriptor whose handle is absent arms a timer under
    the next free handle. *)
Lemma _startTimer_absent d s :
  timerId d = None ->
  _startTimer d s
  = (Normal (Some (next_handle s)),
     set_armed (Pos.succ (next_handle s))
               (<[next_handle s := timer_of d]> (armed s)) s).
Proof.
  intros Hd. unfold _startTimer, timer_of, closure_of. rewrite Hd.
  by destruct (truthy (interval d)).
Qed.

(** On a descriptor that already holds a handle it arms nothing and returns
    [null]. *)
Lemma _startTimer_present d id s :
  timerId d = Some id -> _startTimer d s = (Normal None, s).
Proof. intros Hd. unfold _startTimer. by rewrite Hd. Qed.

Lemma forEach_start (l : list descriptor) (s : state) :
  Forall (fun d => timerId d = None) l ->
  exists l' s', forEach start_each l s = (Normal l', s')
    /\ only_platform s s'
    /\ (next_handle s <= next_handle s')%positive
    /\ (forall h, (h < next_handle s)%positive -> armed s' !! h = armed s !! h)
    /\ Forall2 (armed_as s') l l'.
Proof.
  revert s. induction l as [|d l IH]; intros s Hl; simpl.
  - exists [], s. split; [reflexivity|]. split; [apply only_platform_refl|].
    split; [lia|]. split; [done | constructor].
  - apply Forall_cons in Hl as [Hd Hl].
    unfold bind at 1. unfold start_each at 1. unfold bind at 1.
    rewrite (_startTimer_absent d s Hd). simpl. unfold bind at 1.
    set (s1 := set_armed _ _ s).
    destruct (IH s1 Hl) as (l' & s2 & -> & Hframe & Hle & Hkeep & Hall).
    exists (set_timerId (Some (next_handle s)) d :: l'), s2.
    split; [reflexivity|]. split; [exact Hframe|].
    assert (next_handle s1 = Pos.succ (next_handle s)) as Hn by reflexivity.
    split; [lia|]. split.
    + intros h Hh. rewrite Hkeep by lia. subst s1. simpl.
      apply lookup_insert_ne. lia.
    + constructor; [|exact Hall].
      exists (next_handle s). split; [reflexivity|].
      rewrite Hkeep by lia. subst s1. simpl. apply lookup_insert_eq.
Qed.

Lemma stop_activated s :
  allStarted s = true ->
  exists s1, stop s = (Normal tt, s1)
    /\ timers s1 = set_timerId None <$> timers s
    /\ allStarted s1 = false
    /\ log_same s s1.
Proof.
  intros Ha. unfold stop, bind at 1, gets at 1. rewrite Ha.
  unfold bind at 1, timers_forEach, bind at 1, gets at 1, bind at 1.
  destruct (forEach_stop (timers s) s) as (s' & -> & (Ht & _ & Hl & Har & _)).
  eexists. split; [reflexivity|]. simpl. by repeat split.
Qed.

Lemma start_not_activated s :
  allStarted s = false ->
  Forall (fun d => timerId d = None) (timers s) ->
  exists s1, start s = (Normal tt, s1)
    /\ allStarted s1 = true
    /\ Forall2 (armed_as s1) (timers s) (timers s1)
    /\ log_same s s1.
Proof.
  intros Ha Hall. unfold start, bind at 1, gets at 1. rewrite Ha. simpl.
  unfold bind at 1, timers_forEach, bind at 1, gets at 1, bind at 1.
  destruct (forEach_start (timers s) s Hall)
    as (l' & s' & -> & (Ht & _ & Hl & Har & _) & _ & _ & Harmed).
  eexists. split; [reflexivity|]. simpl. by repeat split.
Qed.

(** [start] and [stop] always return, and set the flag. *)
Lemma forEach_start_total (l : list descriptor) (s : state) :
  exists l' s', forEach start_each l s = (Normal l', s').
Proof.
  revert s. induction l as [|d l IH]; intros s; simpl; [by eexists _, _|].
  unfold bind at 1. unfold start_each at 1. unfold bind at 1.
  destruct (timerId d) as [id|] eqn:Hd.
  - rewrite (_startTimer_present d id s Hd). simpl. unfold bind at 1.
    destruct (IH s) as (l' & s' & ->). by eexists _, _.
  - rewrite (_startTimer_absent d s Hd). simpl. unfold bind at 1.
    match goal with |- context [forEach start_each l ?s1] =>
      destruct (IH s1) as (l' & s' & ->) end.
    by eexists _, _.
Qed.

Lemma start_sets_flag s :
  fst (start s) = Normal tt /\ allStarted (snd (start s)) = true.
Proof.
  unfold start. unfold bind, gets.
  destruct (allStarted s); simpl; [split; reflexivity|].
  unfold timers_forEach. unfold bind, gets.
  destruct (forEach_start_total (timers s) s) as (l' & s' & ->).
  split; reflexivity.
Qed.

Lemma stop_clears_flag s :
  fst (stop s) = Normal tt /\ allStarted (snd (stop s)) = false.
Proof.
  unfold stop. unfold bind, gets.
  destruct (allStarted s); simpl; [|split; reflexivity].
  unfold timers_forEach. unfold bind, gets.
  destruct (forEach_stop (timers s) s) as (s' & -> & _).
  split; reflexivity.
Qed.

(** Only [start] and [stop] write the activation flag. *)
Lemma flag_same_refl s : flag_same s s.
Proof. reflexivity. Qed.

Lemma flag_same_trans s1 s2 s3 :
  flag_same s1 s2 -> flag_same s2 s3 -> flag_same s1 s3.
Proof. unfold flag_same. congruence. Qed.

Lemma flag_same_startTimer d : stable flag_same (_startTimer d).
Proof.
  intros s. unfold _startTimer. destruct (timerId d); [done|].
  by destruct (truthy (interval d)).
Qed.

Lemma flag_same_stopTimer d : stable flag_same (_stopTimer d).
Proof.
  intros s. unfold _stopTimer. destruct (timerId d); [|done].
  by destruct (truthy (interval d)).
Qed.

Lemma flag_same_take_due h : stable flag_same (take_due h).
Proof.
  intros s. unfold take_due. destruct (armed s !! h) as [t|]; [|done].
  by destruct (pt_kind t).
Qed.

Lemma flag_same_pause n : stable flag_same (pause n).
Proof.
  apply stable_pause;
    first [ exact flag_same_refl | exact flag_same_trans
          | exact flag_same_stopTimer | by intros ].
Qed.

Lemma flag_same_resume n : stable flag_same (resume n).
Proof.
  apply stable_resume;
    first [ exact flag_same_refl | exact flag_same_trans
          | exact flag_same_startTimer | by intros ].
Qed.

Lemma flag_only_start_stop call (op : operation) (s : state) :
  op <> Start -> op <> Stop -> allStarted (exec call op s) = allStarted s.
Proof.
  intros Hstart Hstop. unfold exec.
  destruct op; try done; simpl.
  - apply (stable_add flag_same flag_same_refl flag_same_trans); by intros.
  - apply stable_remove;
      first [ exact flag_same_refl | exact flag_same_trans
            | exact flag_same_stopTimer | by intros ].
  - pose proof (flag_same_pause timerName s) as H. unfold bind.
    by destruct (pause timerName s) as [[?|?] ?].
  - pose proof (flag_same_resume timerName s) as H. unfold bind.
    by destruct (resume timerName s) as [[?|?] ?].
  - apply stable_fire;
      first [ exact flag_same_refl | exact flag_same_trans
            | exact flag_same_take_due | by intros ].
Qed.

Lemma valid_descriptor_stop registered v :
  valid_descriptor registered v ->
  valid_descriptor (set_timerId None <$> registered) v.
Proof.
  intros ((n & Hname & Hn & Hfresh) & Hrest). split; [|exact Hrest].
  exists n. split; [done|]. split; [done|].
  intros d Hd. apply list_elem_of_fmap in Hd as (d0 & -> & Hd0).
  simpl. by apply Hfresh.
Qed.

(** C3. A new manager is not activated; [start] always sets the activation
    flag, [stop] always clears it, and nothing else writes it: the flag is
    set exactly when a [start] has been issued since the last [stop] or since
    creation.  While the flag is set, every call of [add], whatever its
    arguments and whatever the registry holds, throws the state error and
    changes nothing.  After [stop], [add] of a valid descriptor with a new
    name succeeds and appends it to the registry, and the [start] that
    follows arms every descriptor of the registry, the old ones and the new
    one: each gets a handle under which the platform holds the timer for that
    descriptor. *)
Theorem add_refused_while_activated (s : state) :
  allStarted s = true ->
  (allStarted new_TimersManager = false
   /\ forall s0, allStarted (snd (start s0)) = true
                 /\ allStarted (snd (stop s0)) = false
                 /\ forall call op, op <> Start -> op <> Stop ->
                      allStarted (exec call op s0) = allStarted s0)
  /\ (forall v ps,
        add v ps s = (Throw (new_Error "Can not add new timer after start!"), s))
  /\ (forall v ps, valid_descriptor (timers s) v ->
        exists s1 s2 s3,
          stop s = (Normal tt, s1) /\ allStarted s1 = false
          /\ timers s1 = set_timerId None <$> timers s
          /\ add v ps s1 = (Normal tt, s2)
          /\ timers s2 = timers s1 ++ [descriptor_of v ps]
          /\ start s2 = (Normal tt, s3) /\ allStarted s3 = true
          /\ Forall2 (armed_as s3) (timers s2) (timers s3)).
Proof.
  intros Ha. split; [|split].
  - split; [reflexivity|]. intros s0.
    split; [apply start_sets_flag|]. split; [apply stop_clears_flag|].
    intros call op. apply flag_only_start_stop.
  - intros v ps. by apply add_activated.
  - intros v ps Hv.
    destruct (stop_activated s Ha) as (s1 & Hstop & Ht1 & Ha1 & _).
    assert (valid_descriptor (timers s1) v) as Hv1.
    { rewrite Ht1. by apply valid_descriptor_stop. }
    pose proof (add_valid v ps s1 Ha1 Hv1) as Hadd.
    set (s2 := set_timers (timers s1 ++ [descriptor_of v ps]) s1) in *.
    assert (Forall (fun d => timerId d = None) (timers s2)) as Hnone.
    { subst s2. simpl. rewrite Ht1. apply Forall_app. split.
      - apply Forall_fmap, Forall_forall. by intros d _.
      - by repeat constructor. }
    destruct (start_not_activated s2 Ha1 Hnone) as (s3 & Hstart & Ha3 & Harmed & _).
    exists s1, s2, s3. by repeat split.
Qed.

(** ** The delay checks of [add] *)

(** Up to the delay checks: with the manager not activated and a non-empty
    string name that is not registered, [add] gets as far as reading the
    delay. *)
Lemma add_reaches_delay v ps s n :
  allStarted s = false ->
  read_prop v "name" = VStr n -> n <> EmptyString ->
  (forall d, d ∈ timers s -> name d <> VStr n) ->
  add v ps s =
  (let dl := read_prop v "delay" in
   if negb (String.eqb (typeof dl) "number")
   then (Throw (new_TypeError "Timer delay must be numeric type!"), s)
   else if less_than dl (VNum num_0) || greater_than dl (VNum num_5000)
   then (Throw (new_RangeError "Timer delay must be in range [0..5000]!"), s)
   else
     let iv := read_prop v "interval" in
     if negb (String.eqb (typeof iv) "boolean")
     then (Throw (new_TypeError "Timer interval must be boolean type!"), s)
     else
       let jb := read_prop v "job" in
       if negb (String.eqb (typeof jb) "function")
       then (Throw (new_TypeError "Timer job must be a function!"), s)
       else (Normal tt, set_timers (timers s ++ [descriptor_of v ps]) s)).
Proof.
  intros Hns Hname Hn Hfresh.
  unfold add, bind, gets. rewrite Hns. simpl.
  rewrite (get_prop_read v "name" (VStr n)) by done.
  rewrite _findTimerIndex_string by done.
  rewrite findIndex_name_absent by (intros d Hd; by apply Hfresh).
  destruct v as [| | | | |c props]; try discriminate Hname.
  unfold descriptor_of. simpl in *. rewrite Hname.
  repeat (case_match; try reflexivity).
Qed.

(** The delay checks, for a call that reaches them: a delay that is not a
    number is refused with a type error; a number other than NaN is refused
    with the range error exactly when it lies outside [[0, 5000]]; in both
    refusals nothing changes. *)
Lemma add_delay_checks v ps s n :
  allStarted s = false ->
  read_prop v "name" = VStr n -> n <> EmptyString ->
  (forall d, d ∈ timers s -> name d <> VStr n) ->
  (typeof (read_prop v "delay") <> "number" ->
     add v ps s = (Throw (new_TypeError "Timer delay must be numeric type!"), s))
  /\ (forall x, read_prop v "delay" = VNum x -> x <> S754_nan ->
        (add v ps s
         = (Throw (new_RangeError "Timer delay must be in range [0..5000]!"), s)
         <-> in_range x = false)).
Proof.
  intros Hns Hname Hn Hfresh.
  rewrite (add_reaches_delay v ps s n) by done. simpl. split.
  - intros Hty. apply String.eqb_neq in Hty. by rewrite Hty.
  - intros x Hx Hnan. rewrite Hx. simpl.
    rewrite range_guard_not_nan by done.
    destruct (in_range x); simpl; [|done].
    split; [|done]. repeat case_match; discriminate.
Qed.

(** C5, at the failing input.  NaN has type [number] and does not lie in
    [[0, 5000]], yet [add] on a fresh manager accepts a descriptor whose
    delay is NaN: no range error is thrown and the registry grows by one. *)
Theorem add_accepts_nan_delay :
  typeof (VNum S754_nan) = "number"
  /\ in_range S754_nan = false
  /\ fst (add nan_descriptor [] new_TimersManager) = Normal tt
  /\ timers (snd (add nan_descriptor [] new_TimersManager))
     = [descriptor_of nan_descriptor []]
  /\ delay (descriptor_of nan_descriptor []) = VNum S754_nan.
Proof. by repeat split. Qed.

(** ** Per-timer control *)

Lemma set_timers_id s : set_timers (timers s) s = s.
Proof. by destruct s. Qed.

Lemma set_timerId_id d : set_timerId (timerId d) d = d.
Proof. by destruct d. Qed.

Lemma timers_at_lookup i d s :
  timers s !! i = Some d -> timers_at (Z.of_nat i) s = (Normal d, s).
Proof. intros H. unfold timers_at. by rewrite Nat2Z.id, H. Qed.

Lemma pause_absent n s :
  n <> EmptyString ->
  (forall d, d ∈ timers s -> ~ has_name n d) ->
  pause (VStr n) s = (Normal (-1), s).
Proof.
  intros Hn Hno. unfold pause, bind.
  rewrite _findTimerIndex_string by done.
  by rewrite findIndex_name_absent.
Qed.

Lemma resume_absent n s :
  n <> EmptyString ->
  (forall d, d ∈ timers s -> ~ has_name n d) ->
  resume (VStr n) s = (Normal (-1), s).
Proof.
  intros Hn Hno. unfold resume, bind.
  rewrite _findTimerIndex_string by done.
  by rewrite findIndex_name_absent.
Qed.

Lemma pause_found n s i d :
  n <> EmptyString ->
  timers s !! i = Some d -> has_name n d ->
  (forall j d', timers s !! j = Some d' -> (j < i)%nat -> ~ has_name n d') ->
  exists s1,
    _stopTimer d s = (Normal tt, s1)
    /\ pause (VStr n) s
       = (Normal (Z.of_nat i),
          set_timers (<[i := set_timerId None d]> (timers s1)) s1).
Proof.
  intros Hn Hi Hd Hfirst. unfold pause. unfold bind at 1.
  rewrite _findTimerIndex_string by done.
  rewrite (findIndex_name_found n (timers s) i d) by done.
  replace (0 <=? Z.of_nat i) with true by (symmetry; apply Z.leb_le; lia).
  unfold bind. rewrite (timers_at_lookup i d s Hi).
  destruct (_stopTimer_eq d s) as (s1 & Hstop & _ & _).
  exists s1. split; [done|]. rewrite Hstop.
  unfold modify, ret. by rewrite Nat2Z.id.
Qed.

Lemma resume_found n s i d :
  n <> EmptyString ->
  timers s !! i = Some d -> has_name n d ->
  (forall j d', timers s !! j = Some d' -> (j < i)%nat -> ~ has_name n d') ->
  exists id s1,
    _startTimer d s = (Normal id, s1)
    /\ resume (VStr n) s
       = (Normal (Z.of_nat i),
          set_timers (<[i := set_timerId id d]> (timers s1)) s1).
Proof.
  intros Hn Hi Hd Hfirst. unfold resume. unfold bind at 1.
  rewrite _findTimerIndex_string by done.
  rewrite (findIndex_name_found n (timers s) i d) by done.
  replace (0 <=? Z.of_nat i) with true by (symmetry; apply Z.leb_le; lia).
  unfold bind. rewrite (timers_at_lookup i d s Hi).
  destruct (timerId d) as [h|] eqn:Hid.
  - rewrite (_startTimer_present d h s Hid). eexists _, _.
    split; [reflexivity|]. unfold modify, ret. by rewrite Nat2Z.id.
  - rewrite (_startTimer_absent d s Hid). eexists _, _.
    split; [reflexivity|]. unfold modify, ret. by rewrite Nat2Z.id.
Qed.

(** C6. For a non-empty string name: if some descriptor of the registry has
    the name, [pause] and [resume] both return the index of the first such
    descriptor, a non-negative number, whatever its handle; and [pause]
    leaves the state as it is when that descriptor's handle is absent.  If no
    descriptor has the name, both return -1, without throwing and without
    changing anything. *)
Theorem pause_resume_return_index (n : string) (s : state) :
  n <> EmptyString ->
  ((exists d, d ∈ timers s /\ has_name n d) ->
     exists i d, timers s !! i = Some d /\ has_name n d
       /\ (forall j d', timers s !! j = Some d' -> (j < i)%nat -> ~ has_name n d')
       /\ 0 <= Z.of_nat i
       /\ fst (pause (VStr n) s) = Normal (Z.of_nat i)
       /\ fst (resume (VStr n) s) = Normal (Z.of_nat i)
       /\ (timerId d = None -> snd (pause (VStr n) s) = s))
  /\ ((forall d, d ∈ timers s -> ~ has_name n d) ->
        pause (VStr n) s = (Normal (-1), s)
        /\ resume (VStr n) s = (Normal (-1), s)).
Proof.
  intros Hn. split.
  - intros Hex.
    destruct (first_with_name n (timers s) Hex) as (i & d & Hi & Hd & Hfirst).
    exists i, d. split; [done|]. split; [done|]. split; [done|].
    split; [lia|].
    destruct (pause_found n s i d Hn Hi Hd Hfirst) as (s1 & Hstop & ->).
    destruct (resume_found n s i d Hn Hi Hd Hfirst) as (id & s2 & _ & ->).
    split; [done|]. split; [done|].
    intros Hnone. simpl.
    destruct (_stopTimer_eq d s) as (s1' & Hstop' & _ & Hsame).
    rewrite Hstop in Hstop'. injection Hstop' as <-.
    rewrite (Hsame Hnone). rewrite <- Hnone, set_timerId_id.
    by rewrite list_insert_id, set_timers_id.
  - intros Hno. split; [by apply pause_absent | by apply resume_absent].
Qed.

(** C4. [remove] does what [pause] followed by deleting the descriptor at the
    returned index does, the deletion taking place exactly when the index is
    not negative: the two computations agree on every state and every
    argument, in the result (a type error included) and in the final state.
    Removing a non-empty string name that no descriptor has changes
    nothing. *)
Theorem remove_is_pause_then_delete (timerName : value) (s : state) :
  remove timerName s = remove_spec timerName s
  /\ (forall n, timerName = VStr n -> n <> EmptyString ->
        (forall d, d ∈ timers s -> ~ has_name n d) ->
        remove timerName s = (Normal tt, s)).
Proof.
  split.
  - unfold remove, remove_spec, bind.
    destruct (pause timerName s) as [[idx|e] s1]; [|done].
    destruct (Z.leb_spec 0 idx), (Z.ltb_spec idx 0); try lia; [|done].
    unfold modify, delete_at. by rewrite delete_take_drop.
  - intros n -> Hn Hno. unfold remove, bind.
    by rewrite pause_absent.
Qed.

Section JobFacts.

Variable call : fn_id -> list value -> completion value.

Lemma run_log_extends op : stable log_extends (run call op).
Proof.
  apply stable_run;
    first [ exact log_extends_refl | exact log_extends_trans
          | exact log_extends_log
          | intros d; eapply stable_weaken;
            [ apply log_same_extends
            | first [ apply log_same_startTimer | apply log_same_stopTimer
                    | apply log_same_take_due ] ]
          | intros; by apply log_same_extends ].
Qed.

(** C7. The log is append-only: whatever the operation (a method call, a
    firing, time passing) and whether it returns or throws, the log after it
    is the log before it followed by some new entries, in the same array;
    [pause], [resume] and [remove] leave the log exactly as it was. *)
Theorem log_append_only (op : operation) (s : state) :
  (logData (exec call op s) = logData s
   /\ exists suffix, log_of (exec call op s) = log_of s ++ suffix)
  /\ (forall n, log_of (exec call (Pause n) s) = log_of s
             /\ log_of (exec call (Resume n) s) = log_of s
             /\ log_of (exec call (Remove n) s) = log_of s).
Proof.
  split.
  - apply (run_log_extends op s).
  - intros n. unfold exec. simpl. repeat split; apply log_same_log_of.
    + pose proof (pause_log_same n s) as H. unfold bind.
      by destruct (pause n s) as [[?|?] ?].
    + pose proof (resume_log_same n s) as H. unfold bind.
      by destruct (resume n s) as [[?|?] ?].
    + apply remove_log_same.
Qed.

(** ** Armed timers of reachable states *)

Lemma keeps_armed_wf_same s s' : armed s' = armed s -> keeps_armed_wf s s'.
Proof. intros E H h t. rewrite E. apply H. Qed.

Lemma keeps_armed_wf_startTimer d : stable keeps_armed_wf (_startTimer d).
Proof.
  intros s Hwf. unfold _startTimer.
  destruct (timerId d) eqn:Eid; [exact Hwf|].
  destruct (truthy (interval d)) eqn:Eiv; simpl; intros h t Hl; simpl in Hl;
    apply lookup_insert_Some in Hl as [[_ <-]|[_ Hl]];
    first [ by apply (Hwf h)
          | exists d; (split; [|done]); unfold timer_of, closure_of;
            by rewrite Eiv ].
Qed.

Lemma keeps_armed_wf_delete h n s :
  keeps_armed_wf s (set_armed n (delete h (armed s)) s).
Proof.
  intros Hwf h' t Hl. simpl in Hl.
  apply lookup_delete_Some in Hl as [_ Hl]. by apply (Hwf h').
Qed.

Lemma keeps_armed_wf_stopTimer d : stable keeps_armed_wf (_stopTimer d).
Proof.
  intros s. unfold _stopTimer. destruct (timerId d); [|by intros ?].
  destruct (truthy (interval d)); apply keeps_armed_wf_delete.
Qed.

Lemma keeps_armed_wf_take_due h : stable keeps_armed_wf (take_due h).
Proof.
  intros s. unfold take_due. destruct (armed s !! h) as [t|]; [|by intros ?].
  destruct (pt_kind t); [by intros ?|]. apply keeps_armed_wf_delete.
Qed.

Lemma run_keeps_armed_wf op : stable keeps_armed_wf (run call op).
Proof.
  apply stable_run;
    first [ exact keeps_armed_wf_startTimer | exact keeps_armed_wf_stopTimer
          | exact keeps_armed_wf_take_due
          | intros; by apply keeps_armed_wf_same
          | unfold keeps_armed_wf; by eauto
          | intros d out error s; by apply keeps_armed_wf_same ].
Qed.

Lemma reachable_armed_wf s : reachable call s -> armed_wf s.
Proof.
  induction 1 as [|s op _ IH].
  - intros h t Hl.
    change (armed new_TimersManager) with (∅ : gmap handle platform_timer) in Hl.
    by rewrite lookup_empty in Hl.
  - by apply run_keeps_armed_wf.
Qed.

(** ** The safe-execution wrapper *)

Lemma take_due_armed h t s :
  armed s !! h = Some t ->
  exists s1, take_due h s = (Normal (Some (pt_callback t)), s1)
    /\ log_same s s1 /\ clock s1 = clock s
    /\ timers s1 = timers s /\ allStarted s1 = allStarted s
    /\ (pt_kind t = Interval -> armed s1 = armed s).
Proof.
  intros Hl. unfold take_due. rewrite Hl.
  destruct (pt_kind t); eexists; (split; [reflexivity|]); by repeat split.
Qed.

Lemma safeJob_eq c s :
  safeJob call c s =
  match invoke call (sj_job c) (sj_callbackParams c) with
  | Normal v => _log (sj_descriptor c) v VUndefined s
  | Throw e => _log (sj_descriptor c) VNull e s
  end.
Proof. unfold safeJob. by destruct (invoke call _ _). Qed.

(** Error objects, like all objects, are truthy. *)
Lemma truthy_object c ps : truthy (VObj c ps) = true.
Proof. reflexivity. Qed.

(** What a firing does.  Whenever the platform fires an armed timer of a
    reachable state, the wrapper returns normally (the throw of a job does
    not escape) and the log grows by exactly one entry, whose name and inputs
    are those of the descriptor the timer was armed for.  If the job returns,
    the entry holds the returned value and no error.  If it throws, the
    entry's output is [null]; its error field holds the name, message and
    stack read from the thrown value when that value is truthy, as every
    error object is, and is absent when it is falsy.  A recurring timer is
    still armed afterwards, and the registry and the activation flag are as
    before. *)
Lemma safeJob_logs_every_firing (s : state) (h : handle) (t : platform_timer) :
  reachable call s ->
  armed s !! h = Some t ->
  let d := sj_descriptor (pt_callback t) in
  exists entry s',
    fire call h s = (Normal tt, s')
    /\ log_of s' = log_of s ++ [entry]
    /\ log_name entry = name d
    /\ log_in entry = callbackParams d
    /\ (forall v, invoke call (job d) (callbackParams d) = Normal v ->
          log_out entry = v /\ log_error entry = None)
    /\ (forall e, invoke call (job d) (callbackParams d) = Throw e ->
          log_out entry = VNull
          /\ log_error entry =
               if truthy e
               then Some (mkErrorObj (read_prop e "name") (read_prop e "message")
                                     (read_prop e "stack"))
               else None)
    /\ (pt_kind t = Interval -> armed s' !! h = Some t)
    /\ timers s' = timers s /\ allStarted s' = allStarted s.
Proof.
  intros Hreach Hl d.
  destruct (reachable_armed_wf s Hreach h t Hl) as (d0 & -> & Hid).
  destruct (take_due_armed h _ s Hl) as (s1 & Htake & Hsame & Hclock & Ht & Ha & Harmed).
  simpl in *. subst d.
  unfold fire, bind. rewrite Htake. rewrite safeJob_eq. simpl.
  pose proof (log_same_log_of _ _ Hsame) as Hlog. destruct Hsame as [Hld _].
  destruct (invoke call (job d0) (callbackParams d0)) as [v|e] eqn:Einv;
    rewrite _log_eq; eexists; eexists; (split; [reflexivity|]);
    rewrite log_of_array_write, Hlog; (split; [reflexivity|]); simpl;
    repeat split; try done; try congruence;
    try (intros Hk; rewrite (Harmed Hk); exact Hl).
  by simplify_eq.
Qed.

(** ** Firing without activation *)



(** ** The handle lost by a second arming *)

Lemma reachable_exec_all ops s :
  reachable call s -> reachable call (exec_all call ops s).
Proof.
  revert s. induction ops as [|op ops IH]; intros s Hs; [done|].
  simpl. apply IH. by constructor.
Qed.

(** C8, at the failing input.  After [add(t1)], [resume('t1')] and [start()]
    the descriptor [t1] is in the registry with an absent handle while the
    recurring timer that [resume] armed for it is still armed under handle 1:
    the state is reachable and breaks the invariant.  [_startTimer] arms
    nothing for a descriptor that holds a handle and returns [null], which
    [start] then stores over the handle without disarming the timer.  The
    same happens when [resume] is called on a timer that [start] has armed. *)
Theorem second_arming_loses_handle :
  let s := exec_all call leak_script new_TimersManager in
  let s' := exec_all call double_arm_script new_TimersManager in
  (reachable call s
   /\ timers s = [descriptor_of t1_descriptor []]
   /\ timerId (descriptor_of t1_descriptor []) = None
   /\ armed s !! 1%positive = Some (timer_of (descriptor_of t1_descriptor []))
   /\ ~ absent_handle_disarmed s)
  /\ (reachable call s'
      /\ timers s' = timers s /\ armed s' = armed s
      /\ ~ absent_handle_disarmed s').
Proof.
  intros s s'.
  assert (timers s = [descriptor_of t1_descriptor []]) as Ht by reflexivity.
  assert (armed s !! 1%positive
          = Some (timer_of (descriptor_of t1_descriptor []))) as Ha
    by reflexivity.
  assert (timers s' = timers s) as Ht' by reflexivity.
  assert (armed s' = armed s) as Ha' by reflexivity.
  assert (~ absent_handle_disarmed s) as Hbad.
  { intros Hinv.
    apply (Hinv (descriptor_of t1_descriptor []) ltac:(rewrite Ht; left)
             eq_refl 1%positive _ Ha).
    reflexivity. }
  split.
  - split; [apply reachable_exec_all; constructor|]. by repeat split.
  - split; [apply reachable_exec_all; constructor|].
    split; [exact Ht'|]. split; [exact Ha'|].
    intros Hinv. apply Hbad. intros d Hd Hnone h t Hl.
    rewrite <- Ht' in Hd. rewrite <- Ha' in Hl. by apply (Hinv d Hd Hnone h t).
Qed.

End JobFacts.

(** ** The array [print] returns *)

(** C9, amended.  [print] returns the reference held in [this.logData], not a
    copy, and changes nothing: what the caller reads through it is the
    manager's log.  Element writes of the caller through the returned
    reference therefore do change the manager's log: the entries they leave
    in the array are the log from then on, a later [print] returns the same
    reference, and the next [_log] pushes its entry after the entries the
    caller left. *)
Theorem print_returns_live_array (s : state) (r : loc) :
  fst (print s) = Normal r ->
  r = logData s /\ snd (print s) = s
  /\ array_read r s = log_of s
  /\ forall contents,
       let s1 := array_write r contents s in
       log_of s1 = contents
       /\ print s1 = (Normal r, s1)
       /\ forall d out error,
            log_of (snd (_log d out error s1))
            = contents ++ [log_entry d out error (clock s)].
Proof.
  intros [= <-]. split; [done|]. split; [done|]. split; [done|].
  intros contents s1. split; [apply log_of_array_write|]. split; [done|].
  intros d out error. rewrite _log_eq. simpl.
  change (logData s1) with (logData s).
  subst s1. set (s1 := array_write (logData s) contents s).
  change (logData s) with (logData s1).
  rewrite log_of_array_write. subst s1. by rewrite log_of_array_write.
Qed.

(** ** Name resolution on any argument *)

Lemma typeof_string v : typeof v = "string" -> exists n, v = VStr n.
Proof. destruct v as [| | | | |[?|] ?]; try discriminate. eauto. Qed.

Lemma typeof_number v : typeof v = "number" -> exists x, v = VNum x.
Proof. destruct v as [| | | | |[?|] ?]; try discriminate. eauto. Qed.

Lemma typeof_boolean v : typeof v = "boolean" -> exists b, v = VBool b.
Proof. destruct v as [| | | | |[?|] ?]; try discriminate. eauto. Qed.

Lemma typeof_function v : typeof v = "function" -> exists f ps, v = VObj (Some f) ps.
Proof. destruct v as [| | | | |[?|] ?]; try discriminate. eauto. Qed.

Lemma name_guard v :
  negb (String.eqb (typeof v) "string") || negb (truthy v) = false
  <-> valid_name v.
Proof.
  split.
  - intros H. apply orb_false_elim in H as [H1 H2].
    apply negb_false_iff, String.eqb_eq, typeof_string in H1 as [n ->].
    exists n. split; [done|]. intros ->. discriminate H2.
  - intros (n & -> & Hn). simpl. apply String.eqb_neq in Hn. by rewrite Hn.
Qed.

Lemma valid_name_dec v : valid_name v \/ ~ valid_name v.
Proof.
  destruct (negb (String.eqb (typeof v) "string") || negb (truthy v)) eqn:E.
  - right. intros H. apply name_guard in H. congruence.
  - left. by apply name_guard.
Qed.

Lemma _findTimerIndex_invalid v s :
  ~ valid_name v ->
  _findTimerIndex v s = (Throw (new_TypeError "Timer name must be string type!"), s).
Proof.
  intros H. unfold _findTimerIndex.
  destruct (negb (String.eqb (typeof v) "string") || negb (truthy v)) eqn:E; [done|].
  destruct H. by apply name_guard.
Qed.

Lemma name_resolution n (l : list descriptor) :
  (forall d, d ∈ l -> ~ has_name n d)
  \/ exists i d, l !! i = Some d /\ has_name n d
       /\ forall j d', l !! j = Some d' -> (j < i)%nat -> ~ has_name n d'.
Proof.
  destruct (list_find (fun d => Is_true (strict_equal (name d) (VStr n))) l)
    as [[i d]|] eqn:Hfind.
  - right. apply first_with_name.
    apply list_find_Some in Hfind as (Hi & Hp & _).
    exists d. split; [by eapply list_elem_of_lookup_2|].
    by apply Is_true_true, strict_equal_string in Hp.
  - left. intros d Hd Hn.
    eapply list_find_None, Forall_forall in Hfind; [|exact Hd].
    destruct Hfind. by apply Is_true_true, strict_equal_string.
Qed.

(** X1. A name that is not a non-empty string (a number, [undefined], an
    object, the empty string, ...) makes name resolution throw the type
    error, and [pause], [resume] and [remove] pass that error on; the state
    is left as it was. *)
Theorem invalid_name_rejected (timerName : value) (s : state) :
  ~ valid_name timerName ->
  let e := new_TypeError "Timer name must be string type!" in
  _findTimerIndex timerName s = (Throw e, s)
  /\ pause timerName s = (Throw e, s)
  /\ resume timerName s = (Throw e, s)
  /\ remove timerName s = (Throw e, s).
Proof.
  intros H e.
  pose proof (_findTimerIndex_invalid timerName s H) as Hf.
  split; [exact Hf|].
  unfold remove, pause, resume, bind. by rewrite Hf.
Qed.

(** ** What [add] accepts *)

Lemma add_accepted v ps s :
  allStarted s = false -> accepted (timers s) v ->
  add v ps s = (Normal tt, set_timers (timers s ++ [descriptor_of v ps]) s).
Proof.
  intros Hns [((n & Hname & Hn) & (x & Hx) & Hlt & Hgt & (b & Hb) & (f & fps & Hf))
              Hfresh].
  simpl in *.
  rewrite (add_reaches_delay v ps s n) by (rewrite <- ?Hname; done).
  simpl. rewrite Hlt, Hgt, Hx, Hb, Hf. reflexivity.
Qed.

Lemma add_cases v ps s :
  (exists e, add v ps s = (Throw e, s))
  \/ (allStarted s = false /\ accepted (timers s) v).
Proof.
  destruct (allStarted s) eqn:Ha.
  { left. eexists. by apply add_activated. }
  destruct (valid_name_dec (read_prop v "name")) as [(n & Hname & Hn)|Hbad].
  - destruct (name_resolution n (timers s)) as [Hfresh|(i & d & Hi & Hd & Hfirst)].
    + rewrite (add_reaches_delay v ps s n) by done. simpl.
      destruct (negb (String.eqb (typeof (read_prop v "delay")) "number")) eqn:E1;
        [left; by eexists|].
      destruct (less_than (read_prop v "delay") (VNum num_0)
                || greater_than (read_prop v "delay") (VNum num_5000)) eqn:E2;
        [left; by eexists|].
      destruct (negb (String.eqb (typeof (read_prop v "interval")) "boolean")) eqn:E3;
        [left; by eexists|].
      destruct (negb (String.eqb (typeof (read_prop v "job")) "function")) eqn:E4;
        [left; by eexists|].
      right. split; [done|].
      apply negb_false_iff, String.eqb_eq in E1, E3, E4.
      apply orb_false_elim in E2 as [E2 E2'].
      split; [|intros d Hd; rewrite Hname; by apply Hfresh].
      split; [by exists n|]. split; [by apply typeof_number|].
      split; [done|]. split; [done|].
      split; [by apply typeof_boolean | by apply typeof_function].
    + left. unfold add, bind, gets. rewrite Ha. simpl.
      rewrite (get_prop_read v "name" (VStr n)) by done.
      rewrite _findTimerIndex_string by done.
      rewrite (findIndex_name_found n (timers s) i d) by done.
      replace (0 <=? Z.of_nat i) with true by (symmetry; apply Z.leb_le; lia).
      by eexists.
  - left. unfold add, bind, gets. rewrite Ha. simpl.
    destruct v as [| | | | |c props]; try (by eexists);
      simpl in *; rewrite _findTimerIndex_invalid by done; by eexists.
Qed.

(** X2. [add] returns only when the manager is not activated and the object
    has passed every check: a non-empty string name that no registered
    descriptor has, a numeric delay that is neither below 0 nor above 5000, a
    boolean interval flag and a callable job.  It has then appended the
    descriptor, with the bound arguments and an absent handle, at the end of
    the registry and touched nothing else.  While the manager is activated,
    and for an object that fails a check, [add] throws and leaves the state
    as it was. *)
Theorem add_succeeds_only_if (v : value) (ps : list value) (s : state) :
  (forall s', add v ps s = (Normal tt, s') ->
     allStarted s = false /\ accepted (timers s) v
     /\ s' = set_timers (timers s ++ [descriptor_of v ps]) s)
  /\ (allStarted s = true \/ ~ accepted (timers s) v ->
      exists e, add v ps s = (Throw e, s)).
Proof.
  split.
  - intros s' H. destruct (add_cases v ps s) as [[e He]|[Ha Hacc]]; [congruence|].
    rewrite (add_accepted v ps s Ha Hacc) in H. injection H as <-. done.
  - intros H. destruct (add_cases v ps s) as [He|[Ha Hacc]]; [exact He|].
    destruct H as [H|H]; [congruence | by destruct H].
Qed.

(** X3. After a successful [add], name resolution finds the new descriptor at
    the last index of the registry, and a further [add] of any object with
    the same name throws the duplicate-name error, whatever its other
    properties are, and changes nothing. *)
Theorem add_then_lookup (v : value) (ps : list value) (s s' : state) :
  add v ps s = (Normal tt, s') ->
  _findTimerIndex (read_prop v "name") s'
  = (Normal (Z.of_nat (length (timers s))), s')
  /\ timers s' !! length (timers s) = Some (descriptor_of v ps)
  /\ forall v' ps',
       read_prop v' "name" = read_prop v "name" ->
       add v' ps' s'
       = (Throw (new_Error ("Timer " +:+ dquote +:+ string_of (read_prop v "name")
                            +:+ dquote +:+ " already exists!")), s').
Proof.
  intros Hadd.
  destruct (add_cases v ps s) as [[e He]|[Ha Hacc]]; [congruence|].
  rewrite (add_accepted v ps s Ha Hacc) in Hadd. injection Hadd as <-.
  destruct Hacc as [((n & Hname & Hn) & _) Hfresh]. simpl in Hname.
  assert ((timers s ++ [descriptor_of v ps]) !! length (timers s)
          = Some (descriptor_of v ps)) as Hlast by apply list_lookup_middle, eq_refl.
  assert (findIndex (fun d => strict_equal (name d) (VStr n))
            (timers s ++ [descriptor_of v ps]) = Z.of_nat (length (timers s)))
    as Hidx.
  { apply (findIndex_name_found n _ _ (descriptor_of v ps)); [done|done|].
    intros j d' Hj Hlt Hd'. rewrite lookup_app_l in Hj by done.
    apply (Hfresh d'); [by eapply list_elem_of_lookup_2|].
    by rewrite Hname. }
  rewrite Hname. split; [|split; [exact Hlast|]].
  - rewrite _findTimerIndex_string by done. simpl. by rewrite Hidx.
  - intros v' ps' Hv'.
    unfold add, bind, gets. simpl. rewrite Ha.
    rewrite (get_prop_read v' "name" (VStr n)) by done.
    rewrite _findTimerIndex_string by done. simpl. rewrite Hidx.
    by replace (0 <=? Z.of_nat (length (timers s))) with true
      by (symmetry; apply Z.leb_le; lia).
Qed.

(** ** What [pause], [resume] and [remove] do to a registered timer *)

Lemma _stopTimer_disarm d s : _stopTimer d s = (Normal tt, disarm (timerId d) s).
Proof.
  unfold _stopTimer, disarm. destruct (timerId d); [|done].
  by destruct (truthy (interval d)).
Qed.

Lemma disarm_timers id s : timers (disarm id s) = timers s.
Proof. by destruct id. Qed.

Lemma disarm_next_handle id s : next_handle (disarm id s) = next_handle s.
Proof. by destruct id. Qed.

Lemma disarm_only_platform id s : only_platform s (disarm id s).
Proof. destruct id; by repeat split. Qed.

Lemma delete_insert_same {A} (l : list A) i x :
  delete i (<[i := x]> l) = delete i l.
Proof.
  revert i. induction l as [|y l IH]; intros [|i]; simpl; try done.
  f_equal. apply IH.
Qed.

Lemma pause_effect n s i d :
  n <> EmptyString ->
  timers s !! i = Some d -> has_name n d ->
  (forall j d', timers s !! j = Some d' -> (j < i)%nat -> ~ has_name n d') ->
  pause (VStr n) s
  = (Normal (Z.of_nat i),
     set_timers (<[i := set_timerId None d]> (timers s)) (disarm (timerId d) s)).
Proof.
  intros Hn Hi Hd Hfirst.
  destruct (pause_found n s i d Hn Hi Hd Hfirst) as (s1 & Hstop & ->).
  rewrite _stopTimer_disarm in Hstop. injection Hstop as <-.
  by rewrite disarm_timers.
Qed.

Lemma resume_effect_present n s i d h :
  n <> EmptyString ->
  timers s !! i = Some d -> has_name n d ->
  (forall j d', timers s !! j = Some d' -> (j < i)%nat -> ~ has_name n d') ->
  timerId d = Some h ->
  resume (VStr n) s
  = (Normal (Z.of_nat i), set_timers (<[i := set_timerId None d]> (timers s)) s).
Proof.
  intros Hn Hi Hd Hfirst Hh.
  destruct (resume_found n s i d Hn Hi Hd Hfirst) as (id & s1 & Hstart & ->).
  rewrite (_startTimer_present d h s Hh) in Hstart. by injection Hstart as <- <-.
Qed.

Lemma resume_effect_absent n s i d :
  n <> EmptyString ->
  timers s !! i = Some d -> has_name n d ->
  (forall j d', timers s !! j = Some d' -> (j < i)%nat -> ~ has_name n d') ->
  timerId d = None ->
  resume (VStr n) s
  = (Normal (Z.of_nat i),
     set_timers (<[i := set_timerId (Some (next_handle s)) d]> (timers s)) (arm d s)).
Proof.
  intros Hn Hi Hd Hfirst Hh.
  destruct (resume_found n s i d Hn Hi Hd Hfirst) as (id & s1 & Hstart & ->).
  rewrite (_startTimer_absent d s Hh) in Hstart. by injection Hstart as <- <-.
Qed.

Lemma remove_effect n s i d :
  n <> EmptyString ->
  timers s !! i = Some d -> has_name n d ->
  (forall j d', timers s !! j = Some d' -> (j < i)%nat -> ~ has_name n d') ->
  remove (VStr n) s
  = (Normal tt, set_timers (delete i (timers s)) (disarm (timerId d) s)).
Proof.
  intros Hn Hi Hd Hfirst. unfold remove, bind.
  rewrite (pause_effect n s i d) by done.
  replace (0 <=? Z.of_nat i) with true by (symmetry; apply Z.leb_le; lia).
  unfold modify. simpl. by rewrite Nat2Z.id, delete_insert_same.
Qed.

Lemma fire_unarmed call h s : armed s !! h = None -> fire call h s = (Normal tt, s).
Proof. intros H. unfold fire, bind, take_due. by rewrite H. Qed.

(** X4. [pause] of a registered name clears the handle of the descriptor the
    name resolves to and disarms the timer stored under it: that timer cannot
    fire any more (its firing changes nothing, so it logs nothing).  No other
    descriptor and no other armed timer is touched, and the activation flag,
    the log and the next free handle stay as they were. *)
Theorem pause_silences_timer (n : string) (s : state) (i : nat) (d : descriptor) :
  n <> EmptyString ->
  timers s !! i = Some d -> has_name n d ->
  (forall j d', timers s !! j = Some d' -> (j < i)%nat -> ~ has_name n d') ->
  exists s',
    pause (VStr n) s = (Normal (Z.of_nat i), s')
    /\ timers s' = <[i := set_timerId None d]> (timers s)
    /\ (forall h, timerId d = Some h ->
          armed s' !! h = None
          /\ forall call, fire call h s' = (Normal tt, s'))
    /\ (forall h, timerId d <> Some h -> armed s' !! h = armed s !! h)
    /\ allStarted s' = allStarted s /\ log_of s' = log_of s
    /\ next_handle s' = next_handle s.
Proof.
  intros Hn Hi Hd Hfirst. eexists. split; [by apply pause_effect|].
  simpl. rewrite disarm_next_handle.
  destruct (disarm_only_platform (timerId d) s) as (_ & Ha & Hl & Har & _).
  split; [done|]. split; [|split; [|split; [done|split; [|done]]]].
  - intros h Hh. rewrite Hh. simpl.
    assert (delete h (armed s) !! h = None) as Hnone by apply lookup_delete_eq.
    split; [exact Hnone|]. intros call. by apply fire_unarmed.
  - intros h Hh. destruct (timerId d) as [h0|]; [|done]. simpl.
    apply lookup_delete_ne. congruence.
  - unfold log_of, array_read. simpl. by rewrite Hl, Har.
Qed.

(** X5. [pause] followed by [resume] of a registered name returns the same
    index twice and leaves the descriptor armed again: it holds the handle
    that was the next free one, under which the platform holds the timer for
    that descriptor; the other descriptors of the registry and the activation
    flag are as before. *)
Theorem pause_then_resume_rearms (n : string) (s : state) (i : nat) (d : descriptor) :
  n <> EmptyString ->
  timers s !! i = Some d -> has_name n d ->
  (forall j d', timers s !! j = Some d' -> (j < i)%nat -> ~ has_name n d') ->
  exists s1 s2,
    pause (VStr n) s = (Normal (Z.of_nat i), s1)
    /\ resume (VStr n) s1 = (Normal (Z.of_nat i), s2)
    /\ timers s2 = <[i := set_timerId (Some (next_handle s)) d]> (timers s)
    /\ armed s2 !! next_handle s = Some (timer_of (set_timerId None d))
    /\ allStarted s2 = allStarted s.
Proof.
  intros Hn Hi Hd Hfirst.
  pose proof (lookup_lt_Some _ _ _ Hi) as Hlen.
  eexists _, _. split; [by apply pause_effect|].
  split.
  - apply (resume_effect_absent n _ i (set_timerId None d)); simpl; try done.
    + by apply list_lookup_insert_eq.
    + intros j d' Hj Hlt.
      rewrite list_lookup_insert_ne in Hj by lia. by apply (Hfirst j).
  - simpl. rewrite disarm_next_handle, list_insert_insert_eq.
    split; [done|]. split; [apply lookup_insert_eq|].
    by destruct (timerId d).
Qed.

(** X6. [resume] of a registered name whose descriptor already holds a
    handle (its timer is armed, or it is a one-shot timer that has fired)
    arms nothing: it only replaces the stored handle by [null], the platform
    is left as it was.  A second [resume] then arms a timer for the
    descriptor under the next free handle. *)
Theorem resume_with_handle_only_clears
    (n : string) (s : state) (i : nat) (d : descriptor) (h : handle) :
  n <> EmptyString ->
  timers s !! i = Some d -> has_name n d ->
  (forall j d', timers s !! j = Some d' -> (j < i)%nat -> ~ has_name n d') ->
  timerId d = Some h ->
  exists s1 s2,
    resume (VStr n) s = (Normal (Z.of_nat i), s1)
    /\ s1 = set_timers (<[i := set_timerId None d]> (timers s)) s
    /\ armed s1 = armed s /\ next_handle s1 = next_handle s
    /\ resume (VStr n) s1 = (Normal (Z.of_nat i), s2)
    /\ timers s2 = <[i := set_timerId (Some (next_handle s)) d]> (timers s)
    /\ armed s2 = <[next_handle s := timer_of (set_timerId None d)]> (armed s).
Proof.
  intros Hn Hi Hd Hfirst Hh.
  pose proof (lookup_lt_Some _ _ _ Hi) as Hlen.
  eexists _, _. split; [by eapply resume_effect_present|].
  split; [done|]. split; [done|]. split; [done|]. split.
  - apply (resume_effect_absent n _ i (set_timerId None d)); simpl; try done.
    + by apply list_lookup_insert_eq.
    + intros j d' Hj Hlt.
      rewrite list_lookup_insert_ne in Hj by lia. by apply (Hfirst j).
  - simpl. by rewrite list_insert_insert_eq.
Qed.

(** X7. [remove] of a registered name, in a registry whose names are
    pairwise distinct, deletes the descriptor the name resolves to and
    disarms its timer: the registry loses that one position and keeps the
    others in order, no descriptor has the name any more, and [pause] and
    [resume] of the name return -1 and change nothing. *)
Theorem remove_then_lookup (n : string) (s : state) (i : nat) (d : descriptor) :
  n <> EmptyString ->
  NoDup (name <$> timers s) ->
  timers s !! i = Some d -> has_name n d ->
  exists s',
    remove (VStr n) s = (Normal tt, s')
    /\ timers s' = delete i (timers s)
    /\ S (length (timers s')) = length (timers s)
    /\ (forall h, timerId d = Some h -> armed s' !! h = None)
    /\ (forall d', d' ∈ timers s' -> ~ has_name n d')
    /\ pause (VStr n) s' = (Normal (-1), s')
    /\ resume (VStr n) s' = (Normal (-1), s').
Proof.
  intros Hn Hnd Hi Hd.
  pose proof (lookup_lt_Some _ _ _ Hi) as Hlen.
  assert (forall j d', timers s !! j = Some d' -> has_name n d' -> j = i) as Huniq.
  { intros j d' Hj Hd'. apply (NoDup_lookup _ _ _ (VStr n) Hnd).
    - by rewrite list_lookup_fmap, Hj; simpl; rewrite Hd'.
    - by rewrite list_lookup_fmap, Hi; simpl; rewrite Hd. }
  assert (forall d', d' ∈ delete i (timers s) -> ~ has_name n d') as Hgone.
  { intros d' Hin Hd'. apply list_elem_of_lookup_1 in Hin as [j Hj].
    destruct (decide (j < i)%nat) as [Hlt|Hge].
    - rewrite list_lookup_delete_lt in Hj by done.
      pose proof (Huniq j d' Hj Hd'). lia.
    - rewrite list_lookup_delete_ge in Hj by lia.
      pose proof (Huniq (S j) d' Hj Hd'). lia. }
  eexists. split.
  { apply (remove_effect n s i d); try done.
    intros j d' Hj Hlt Hd'. pose proof (Huniq j d' Hj Hd'). lia. }
  simpl.
  split; [done|]. split; [rewrite length_delete by eauto; lia|].
  split; [|split; [done|split]].
  - intros h Hh. rewrite Hh. simpl. apply lookup_delete_eq.
  - by apply pause_absent.
  - by apply resume_absent.
Qed.

(** ** Global start and stop, again *)

Lemma set_allStarted_id s : set_allStarted (allStarted s) s = s.
Proof. by destruct s. Qed.

Lemma start_activated s : allStarted s = true -> start s = (Normal tt, s).
Proof.
  intros H. unfold start, bind, gets. rewrite H. simpl. unfold modify.
  by rewrite <- H, set_allStarted_id.
Qed.

Lemma stop_not_activated s : allStarted s = false -> stop s = (Normal tt, s).
Proof.
  intros H. unfold stop, bind, gets. rewrite H. simpl. unfold modify.
  by rewrite <- H, set_allStarted_id.
Qed.

(** X8. [start] on an activated manager and [stop] on a manager that is not
    activated change nothing at all: a second [start] does not arm the timers
    paused since the first one, and [stop] before any [start] does not disarm
    a timer that [resume] has armed.  Hence [start] twice is [start] once,
    and [stop] twice is [stop] once. *)
Theorem start_stop_idempotent (s : state) :
  (allStarted s = true -> start s = (Normal tt, s))
  /\ (allStarted s = false -> stop s = (Normal tt, s))
  /\ start (snd (start s)) = (Normal tt, snd (start s))
  /\ stop (snd (stop s)) = (Normal tt, snd (stop s)).
Proof.
  split; [apply start_activated|]. split; [apply stop_not_activated|].
  split.
  - apply start_activated, start_sets_flag.
  - apply stop_not_activated, stop_clears_flag.
Qed.

Lemma forEach_stop_disarm_all (l : list descriptor) (s : state) :
  forEach stop_each l s = (Normal (set_timerId None <$> l), disarm_all l s).
Proof.
  revert s. induction l as [|d l IH]; intros s; simpl; [done|].
  unfold bind at 1. unfold stop_each at 1. unfold bind at 1.
  rewrite _stopTimer_disarm. simpl. unfold bind at 1. by rewrite IH.
Qed.

Lemma disarm_all_only_platform l s :
  only_platform s (disarm_all l s) /\ next_handle (disarm_all l s) = next_handle s.
Proof.
  revert s. induction l as [|d l IH]; intros s; simpl.
  - split; [apply only_platform_refl | done].
  - destruct (IH (disarm (timerId d) s)) as [H1 H2]. split.
    + eapply only_platform_trans; [apply disarm_only_platform | exact H1].
    + by rewrite H2, disarm_next_handle.
Qed.

Lemma disarm_all_armed_sub l s h t :
  armed (disarm_all l s) !! h = Some t -> armed s !! h = Some t.
Proof.
  revert s. induction l as [|d l IH]; intros s; simpl; [done|].
  intros H. apply IH in H. destruct (timerId d) as [h0|]; [|done].
  simpl in H. by apply lookup_delete_Some in H as [_ H].
Qed.

Lemma disarm_all_stored l s d h :
  d ∈ l -> timerId d = Some h -> armed (disarm_all l s) !! h = None.
Proof.
  revert s. induction l as [|d0 l IH]; intros s Hin Hh; [by inversion Hin|].
  simpl. apply elem_of_cons in Hin as [<-|Hin]; [|by apply IH].
  rewrite Hh. simpl.
  destruct (armed (disarm_all l _) !! h) as [t|] eqn:E; [|done].
  apply disarm_all_armed_sub in E. simpl in E.
  by rewrite lookup_delete_eq in E.
Qed.

Lemma disarm_all_other l s h :
  (forall d, d ∈ l -> timerId d <> Some h) ->
  armed (disarm_all l s) !! h = armed s !! h.
Proof.
  revert s. induction l as [|d0 l IH]; intros s Hno; [done|].
  simpl. rewrite IH by (intros d Hd; apply Hno; by right).
  pose proof (Hno d0 ltac:(left)) as H0.
  destruct (timerId d0) as [h0|]; [|done]. simpl.
  apply lookup_delete_ne. congruence.
Qed.

(** X9. [stop] on an activated manager keeps every descriptor in the registry,
    in order, and clears every handle; every handle that was stored in the
    registry is disarmed, no timer is armed by it, and an armed timer whose
    handle is stored nowhere in the registry stays armed.  The log and the
    next free handle are untouched. *)
Theorem stop_disarms_registry (s : state) :
  allStarted s = true ->
  exists s',
    stop s = (Normal tt, s')
    /\ timers s' = set_timerId None <$> timers s
    /\ allStarted s' = false
    /\ (forall d h, d ∈ timers s -> timerId d = Some h -> armed s' !! h = None)
    /\ (forall h t, armed s' !! h = Some t -> armed s !! h = Some t)
    /\ (forall h, (forall d, d ∈ timers s -> timerId d <> Some h) ->
          armed s' !! h = armed s !! h)
    /\ log_of s' = log_of s /\ next_handle s' = next_handle s.
Proof.
  intros Ha. unfold stop, bind at 1, gets at 1. rewrite Ha.
  unfold bind at 1, timers_forEach, bind at 1, gets at 1, bind at 1.
  rewrite forEach_stop_disarm_all.
  eexists. split; [reflexivity|]. simpl.
  destruct (disarm_all_only_platform (timers s) s) as [(_ & _ & Hl & Har & _) Hn].
  split; [done|]. split; [done|].
  split; [intros d h; apply disarm_all_stored|].
  split; [intros h t; apply disarm_all_armed_sub|].
  split; [intros h; apply disarm_all_other|].
  split; [|done]. unfold log_of, array_read. simpl. by rewrite Hl, Har.
Qed.

(** ** Firings and the log *)

Section FiringFacts.

Variable call : fn_id -> list value -> completion value.

Lemma fire_eq h t s :
  armed s !! h = Some t ->
  fire call h s
  = (Normal tt,
     array_write (logData s)
       (log_of s ++ [job_entry call (pt_callback t) (clock s)]) (expire h t s)).
Proof.
  intros H. unfold fire, bind, take_due. rewrite H.
  rewrite safeJob_eq. unfold job_entry, expire.
  destruct (invoke call _ _); rewrite _log_eq; by destruct (pt_kind t).
Qed.

Lemma exec_fire_unarmed h s :
  armed s !! h = None -> exec call (Fire h) s = s.
Proof. intros H. unfold exec. simpl. by rewrite fire_unarmed. Qed.

Lemma exec_fire_armed h t s :
  armed s !! h = Some t ->
  exec call (Fire h) s
  = array_write (logData s)
      (log_of s ++ [job_entry call (pt_callback t) (clock s)]) (expire h t s).
Proof. intros H. unfold exec. simpl. by rewrite (fire_eq h t s H). Qed.

Lemma exec_all_cons op ops s :
  exec_all call (op :: ops) s = exec_all call ops (exec call op s).
Proof. reflexivity. Qed.

Lemma not_fire_log_same op s :
  (forall h, op <> Fire h) -> log_same s (exec call op s).
Proof.
  intros Hop. unfold exec. destruct op; simpl.
  - apply stable_add; first [exact log_same_refl | exact log_same_trans | by intros].
  - apply remove_log_same.
  - apply stable_start;
      first [ exact log_same_refl | exact log_same_trans
            | exact log_same_startTimer | by intros ].
  - apply stable_stop;
      first [ exact log_same_refl | exact log_same_trans
            | exact log_same_stopTimer | by intros ].
  - pose proof (pause_log_same timerName s) as H. unfold bind.
    by destruct (pause timerName s) as [[?|?] ?].
  - pose proof (resume_log_same timerName s) as H. unfold bind.
    by destruct (resume timerName s) as [[?|?] ?].
  - by split.
  - by destruct (Hop h).
  - by split.
Qed.

Lemma exec_log_length op s :
  length (log_of (exec call op s))
  = (length (log_of s) + (if fires op s then 1 else 0))%nat.
Proof.
  destruct (fires op s) eqn:Hf.
  - destruct op; try discriminate Hf. simpl in Hf.
    apply bool_decide_eq_true in Hf as [t Ht].
    unfold exec. simpl. rewrite (fire_eq h t s Ht). simpl.
    replace (logData s) with (logData (expire h t s))
      by (unfold expire; by destruct (pt_kind t)).
    rewrite log_of_array_write, length_app. simpl. lia.
  - rewrite Nat.add_0_r. destruct op;
      try (f_equal; apply log_same_log_of, not_fire_log_same; by intros).
    simpl in Hf. apply bool_decide_eq_false in Hf.
    rewrite exec_fire_unarmed; [done|].
    destruct (armed s !! h) eqn:E; [|done]. destruct Hf. by eexists.
Qed.

(** X10. The log holds one entry for each firing of an armed timer and
    nothing else: along any run of operations its length grows by the number
    of firings of timers that were armed when they fired.  Calls of [add],
    [remove], [start], [stop], [pause], [resume] and [print], whether they
    return or throw, and firings of handles that are not armed, add
    nothing. *)
Theorem log_counts_firings (ops : list operation) (s : state) :
  length (log_of (exec_all call ops s))
  = (length (log_of s) + count_firings call ops s)%nat.
Proof.
  revert s. induction ops as [|op ops IH]; intros s; simpl; [lia|].
  change (foldl _ (exec call op s) ops) with (exec_all call ops (exec call op s)).
  rewrite IH, exec_log_length. lia.
Qed.

Lemma exec_all_fire_unarmed h k s :
  armed s !! h = None -> exec_all call (replicate k (Fire h)) s = s.
Proof.
  intros H. induction k as [|k IH]; [done|].
  simpl replicate. by rewrite exec_all_cons, exec_fire_unarmed.
Qed.

(** X11. A recurring timer logs at every firing and stays armed: [k] firings
    in a row append [k] entries to the log, all for the descriptor the timer
    was armed for.  A one-shot timer logs at its first firing only: however
    often the platform is asked to fire it, the log gains one entry and the
    timer is no longer armed; the descriptor keeps the stale handle. *)
Theorem firing_repeats_by_kind (h : handle) (t : platform_timer) (s : state) (k : nat) :
  armed s !! h = Some t ->
  let entry := job_entry call (pt_callback t) (clock s) in
  log_name entry = name (sj_descriptor (pt_callback t))
  /\ log_in entry = callbackParams (sj_descriptor (pt_callback t))
  /\ (pt_kind t = Interval ->
        log_of (exec_all call (replicate k (Fire h)) s)
        = log_of s ++ replicate k entry
        /\ armed (exec_all call (replicate k (Fire h)) s) = armed s)
  /\ (pt_kind t = Timeout ->
        log_of (exec_all call (replicate (S k) (Fire h)) s) = log_of s ++ [entry]
        /\ armed (exec_all call (replicate (S k) (Fire h)) s) !! h = None
        /\ timers (exec_all call (replicate (S k) (Fire h)) s) = timers s).
Proof.
  intros Ht entry. split; [|split; [|split]].
  - unfold entry, job_entry. by destruct (invoke call _ _).
  - unfold entry, job_entry. by destruct (invoke call _ _).
  - intros Hk. subst entry. revert s Ht.
    induction k as [|k IH]; intros s Ht; simpl replicate.
    + by rewrite app_nil_r.
    + rewrite exec_all_cons, (exec_fire_armed h t s Ht).
      unfold expire. rewrite Hk.
      destruct (IH (array_write (logData s)
                      (log_of s ++ [job_entry call (pt_callback t) (clock s)]) s))
        as [IH1 IH2]; [done|].
      rewrite IH1, IH2, log_of_array_write. simpl.
      by rewrite <- app_assoc.
  - intros Hk. simpl replicate.
    rewrite exec_all_cons, (exec_fire_armed h t s Ht).
    unfold expire. rewrite Hk.
    rewrite exec_all_fire_unarmed by (simpl; apply lookup_delete_eq).
    split; [|split; [simpl; apply lookup_delete_eq | done]].
    apply (log_of_array_write (set_armed (next_handle s) (delete h (armed s)) s)).
Qed.

End FiringFacts.

Lemma invalid_name_rejected_aux (timerName : value) (s : state) :
  ~ valid_name timerName ->
  pause timerName s = (Throw (new_TypeError "Timer name must be string type!"), s)
  /\ resume timerName s = (Throw (new_TypeError "Timer name must be string type!"), s)
  /\ remove timerName s = (Throw (new_TypeError "Timer name must be string type!"), s).
Proof.
  intros H. pose proof (_findTimerIndex_invalid timerName s H) as Hf.
  unfold remove, pause, resume, bind. by rewrite Hf.
Qed.

(** ** Every operation is a sequence of elementary changes *)

Lemma forEach_set_timers cb :
  (forall d L s, cb d (set_timers L s) = (fst (cb d s), set_timers L (snd (cb d s)))) ->
  forall l L s,
    forEach cb l (set_timers L s)
    = (fst (forEach cb l s), set_timers L (snd (forEach cb l s))).
Proof.
  intros Hcb l. induction l as [|d l IH]; intros L s; simpl; [done|].
  unfold bind. rewrite Hcb.
  destruct (cb d s) as [[d'|e] s1]; simpl; [|done].
  rewrite IH. by destruct (forEach cb l s1) as [[l'|e] s2].
Qed.

Lemma forEach_changes cb :
  (forall d L s, cb d (set_timers L s) = (fst (cb d s), set_timers L (snd (cb d s)))) ->
  (forall d s i, timers s !! i = Some d ->
     exists d' s1, cb d s = (Normal d', s1)
       /\ rtc change s (set_timers (<[i := d']> (timers s)) s1)) ->
  forall todo done s,
    timers s = done ++ todo ->
    exists todo' p',
      forEach cb todo s = (Normal todo', p')
      /\ rtc change s (set_timers (done ++ todo') p').
Proof.
  intros Hcomm Hcb todo. induction todo as [|d rest IH]; intros done s Ht.
  - exists [], s. split; [done|]. rewrite <- Ht, set_timers_id. apply rtc_refl.
  - assert (timers s !! length done = Some d) as Hi
      by (rewrite Ht; by apply list_lookup_middle).
    destruct (Hcb d s (length done) Hi) as (d' & s1 & Hd & Hstep).
    rewrite Ht, insert_app_r_alt, Nat.sub_diag in Hstep by done.
    simpl in Hstep.
    set (u := set_timers (done ++ d' :: rest) s1) in *.
    destruct (IH (done ++ [d']) u) as (r2 & p2 & Hrun & Hsteps).
    { subst u. simpl. by rewrite <- app_assoc. }
    subst u. rewrite (forEach_set_timers cb Hcomm) in Hrun.
    destruct (forEach cb rest s1) as [[rest'|e] p'] eqn:Hrest;
      simpl in Hrun; [|discriminate].
    injection Hrun as <- <-.
    exists (d' :: rest'), p'. split.
    + simpl. unfold bind at 1. rewrite Hd. unfold bind at 1. by rewrite Hrest.
    + eapply rtc_trans; [exact Hstep|].
      rewrite <- app_assoc in Hsteps. exact Hsteps.
Qed.

Lemma start_each_set_timers d L s :
  start_each d (set_timers L s)
  = (fst (start_each d s), set_timers L (snd (start_each d s))).
Proof.
  unfold start_each, bind, _startTimer.
  destruct (timerId d); [done|]. by destruct (truthy (interval d)).
Qed.

Lemma stop_each_set_timers d L s :
  stop_each d (set_timers L s)
  = (fst (stop_each d s), set_timers L (snd (stop_each d s))).
Proof.
  unfold stop_each, bind. rewrite !_stopTimer_disarm. simpl. by destruct (timerId d).
Qed.

Lemma start_each_change d s i :
  timers s !! i = Some d ->
  exists d' s1, start_each d s = (Normal d', s1)
    /\ rtc change s (set_timers (<[i := d']> (timers s)) s1).
Proof.
  intros Hi. unfold start_each, bind.
  destruct (timerId d) as [h|] eqn:Hh.
  - rewrite (_startTimer_present d h s Hh). eexists _, _. split; [done|].
    apply rtc_once. by apply change_forget.
  - rewrite (_startTimer_absent d s Hh). eexists _, _. split; [done|].
    apply rtc_once. by apply (change_arm i d s).
Qed.

Lemma stop_each_change d s i :
  timers s !! i = Some d ->
  exists d' s1, stop_each d s = (Normal d', s1)
    /\ rtc change s (set_timers (<[i := d']> (timers s)) s1).
Proof.
  intros Hi. unfold stop_each, bind. rewrite _stopTimer_disarm.
  eexists _, _. split; [done|]. apply rtc_once. by apply change_clear.
Qed.

Lemma timers_forEach_changes cb s :
  (forall d L s, cb d (set_timers L s) = (fst (cb d s), set_timers L (snd (cb d s)))) ->
  (forall d s i, timers s !! i = Some d ->
     exists d' s1, cb d s = (Normal d', s1)
       /\ rtc change s (set_timers (<[i := d']> (timers s)) s1)) ->
  exists s', timers_forEach cb s = (Normal tt, s') /\ rtc change s s'.
Proof.
  intros Hcomm Hcb.
  destruct (forEach_changes cb Hcomm Hcb (timers s) [] s eq_refl)
    as (l' & p' & Hrun & Hsteps).
  unfold timers_forEach, bind, gets. rewrite Hrun. by eexists.
Qed.

Section ChangeFacts.

Variable call : fn_id -> list value -> completion value.

Lemma exec_changes op s : rtc change s (exec call op s).
Proof.
  unfold exec. destruct op as [v ps|n| | |n|n| |h|]; simpl.
  - destruct (add_cases v ps s) as [[e ->]|[Ha Hacc]]; [apply rtc_refl|].
    rewrite add_accepted by done. apply rtc_once. by apply change_append.
  - destruct (valid_name_dec n) as [(x & -> & Hx)|Hbad].
    + destruct (name_resolution x (timers s)) as [Hno|(i & d & Hi & Hd & Hfirst)].
      * unfold remove, bind. rewrite pause_absent by done. apply rtc_refl.
      * rewrite (remove_effect x s i d) by done. simpl.
        eapply rtc_l; [by apply (change_clear i d s)|].
        apply rtc_once.
        pose proof (change_delete i
          (set_timers (<[i := set_timerId None d]> (timers s))
                      (disarm (timerId d) s))) as Hc.
        simpl in Hc. by rewrite delete_insert_same in Hc.
    + destruct (invalid_name_rejected_aux n s Hbad) as (_ & _ & ->).
      apply rtc_refl.
  - unfold start, bind, gets. destruct (allStarted s) eqn:Ha; simpl.
    + apply rtc_once. apply change_flag.
    + destruct (timers_forEach_changes start_each s start_each_set_timers
                  start_each_change) as (s' & -> & Hsteps).
      eapply rtc_r; [exact Hsteps | apply change_flag].
  - unfold stop, bind, gets. destruct (allStarted s) eqn:Ha; simpl.
    + destruct (timers_forEach_changes stop_each s stop_each_set_timers
                  stop_each_change) as (s' & -> & Hsteps).
      eapply rtc_r; [exact Hsteps | apply change_flag].
    + apply rtc_once. apply change_flag.
  - unfold bind.
    destruct (valid_name_dec n) as [(x & -> & Hx)|Hbad].
    + destruct (name_resolution x (timers s)) as [Hno|(i & d & Hi & Hd & Hfirst)].
      * rewrite pause_absent by done. apply rtc_refl.
      * rewrite (pause_effect x s i d) by done. simpl.
        apply rtc_once. by apply change_clear.
    + destruct (invalid_name_rejected_aux n s Hbad) as (-> & _ & _).
      apply rtc_refl.
  - unfold bind.
    destruct (valid_name_dec n) as [(x & -> & Hx)|Hbad].
    + destruct (name_resolution x (timers s)) as [Hno|(i & d & Hi & Hd & Hfirst)].
      * rewrite resume_absent by done. apply rtc_refl.
      * destruct (timerId d) as [h|] eqn:Hh.
        -- rewrite (resume_effect_present x s i d h) by done. simpl.
           apply rtc_once. by apply change_forget.
        -- rewrite (resume_effect_absent x s i d) by done. simpl.
           apply rtc_once. by apply change_arm.
    + destruct (invalid_name_rejected_aux n s Hbad) as (_ & -> & _).
      apply rtc_refl.
  - apply rtc_refl.
  - destruct (armed s !! h) as [t|] eqn:Ht.
    + rewrite (fire_eq call h t s Ht). simpl. unfold expire.
      destruct (pt_kind t) eqn:Hk.
      * apply rtc_once. apply change_log.
      * eapply rtc_l; [by apply (change_expire h t s)|].
        apply rtc_once.
        apply (change_log _ (set_armed (next_handle s) (delete h (armed s)) s)).
    + rewrite fire_unarmed by done. apply rtc_refl.
  - apply rtc_once. apply change_clock.
Qed.

Lemma reachable_changes s : reachable call s -> rtc change new_TimersManager s.
Proof.
  induction 1 as [|s op _ IH]; [apply rtc_refl|].
  eapply rtc_trans; [exact IH | apply exec_changes].
Qed.

End ChangeFacts.

(** ** What the elementary changes preserve *)

Lemma well_typed_set_timerId id d : well_typed d -> well_typed (set_timerId id d).
Proof. done. Qed.

Lemma well_typed_descriptor_of v ps :
  well_typed (descriptor_of v []) -> well_typed (descriptor_of v ps).
Proof. done. Qed.

Lemma names_insert (l : list descriptor) i d id :
  l !! i = Some d -> name <$> <[i := set_timerId id d]> l = name <$> l.
Proof.
  intros Hi. rewrite list_fmap_insert. apply list_insert_id.
  by rewrite list_lookup_fmap, Hi.
Qed.

Lemma registry_wf_change s s' : registry_wf s -> change s s' -> registry_wf s'.
Proof.
  intros [Hnd Hty] Hc. destruct Hc as [b s|t s|v ps s Hacc|i s|i d s Hi|i d s Hi
                                       |i d s Hi Hnone|h t s Ht Hk|o s];
    unfold registry_wf; simpl; try done.
  - destruct Hacc as [Hwt Hfresh]. split.
    + rewrite fmap_app. apply NoDup_app. split; [done|]. split; [|apply NoDup_singleton].
      intros x Hx Hx'. apply list_elem_of_fmap in Hx as (d & -> & Hd).
      apply list_elem_of_singleton in Hx'. by apply (Hfresh d).
    + apply Forall_app. split; [done|]. by apply Forall_singleton.
  - split.
    + rewrite list_fmap_delete.
      eapply sublist_NoDup; [exact Hnd | apply sublist_delete].
    + by apply Forall_delete.
  - split; [by rewrite names_insert|].
    apply Forall_insert; [done|]. by apply (Forall_lookup_1 _ _ _ _ Hty Hi).
  - split; [by rewrite names_insert|].
    apply Forall_insert; [done|]. by apply (Forall_lookup_1 _ _ _ _ Hty Hi).
  - split; [by rewrite names_insert|].
    apply Forall_insert; [done|]. by apply (Forall_lookup_1 _ _ _ _ Hty Hi).
Qed.

Lemma armed_typed_change s s' :
  Forall well_typed (timers s) -> armed_typed s -> change s s' -> armed_typed s'.
Proof.
  intros Hty Hat Hc. destruct Hc as [b s|t s|v ps s Hacc|i s|i d s Hi|i d s Hi
                                     |i d s Hi Hnone|h t s Ht Hk|o s];
    unfold armed_typed; simpl; try done.
  - intros h t Hl. apply (Hat h). destruct (timerId d) as [h0|]; [|done].
    simpl in Hl. by apply lookup_delete_Some in Hl as [_ Hl].
  - intros h t Hl. apply lookup_insert_Some in Hl as [[_ <-]|[_ Hl]].
    + exists d. split; [done|]. by apply (Forall_lookup_1 _ _ _ _ Hty Hi).
    + by apply (Hat h).
  - intros h' t' Hl. apply lookup_delete_Some in Hl as [_ Hl]. by apply (Hat h').
Qed.

Lemma armed_disarm_sub id s h t :
  armed (disarm id s) !! h = Some t -> armed s !! h = Some t.
Proof.
  destruct id as [h0|]; [|done]. simpl. intros H.
  by apply lookup_delete_Some in H as [_ H].
Qed.

Lemma handles_wf_change s s' : handles_wf s -> change s s' -> handles_wf s'.
Proof.
  intros (H1 & H2 & H3) Hc.
  destruct Hc as [b s|t s|v ps s Hacc|i0 s|i0 d0 s Hi0|i0 d0 s Hi0
                  |i0 d0 s Hi0 Hnone|h0 t0 s Ht0 Hk|o s];
    unfold handles_wf; simpl; try done.
  - (* append *)
    split; [done|]. split.
    + intros i d h Hi Hh. apply lookup_snoc_Some in Hi as [[_ Hi]|[_ <-]];
        [by apply (H2 i) | discriminate Hh].
    + intros i j d d' h Hi Hj Hh Hh'.
      apply lookup_snoc_Some in Hi as [[_ Hi]|[_ <-]]; [|discriminate Hh].
      apply lookup_snoc_Some in Hj as [[_ Hj]|[_ <-]]; [|discriminate Hh'].
      by apply (H3 i j d d' h).
  - (* delete *)
    split; [done|].
    assert (forall i d, delete i0 (timers s) !! i = Some d ->
              exists i', timers s !! i' = Some d
                /\ ((i < i0)%nat /\ i' = i \/ (i0 <= i)%nat /\ i' = S i)) as Hdel.
    { intros i d Hi. destruct (decide (i < i0)%nat).
      - rewrite list_lookup_delete_lt in Hi by done. exists i. split; [done|lia].
      - rewrite list_lookup_delete_ge in Hi by lia. exists (S i). split; [done|lia]. }
    split.
    + intros i d h Hi Hh. destruct (Hdel i d Hi) as (i' & Hi' & _).
      by apply (H2 i').
    + intros i j d d' h Hi Hj Hh Hh'.
      destruct (Hdel i d Hi) as (i' & Hi' & Hii).
      destruct (Hdel j d' Hj) as (j' & Hj' & Hjj).
      pose proof (H3 i' j' d d' h Hi' Hj' Hh Hh'). lia.
  - (* clear *)
    rewrite disarm_next_handle.
    split; [intros h t Hl; apply (H1 h t); by eapply armed_disarm_sub|].
    split.
    + intros i d h Hi Hh.
      apply list_lookup_insert_Some in Hi as [(_ & <- & _)|[_ Hi]];
        [discriminate Hh|].
      destruct (H2 i d h Hi Hh) as [Hlt Hown]. split; [done|].
      intros t Hl. apply Hown. by eapply armed_disarm_sub.
    + intros i j d d' h Hi Hj Hh Hh'.
      apply list_lookup_insert_Some in Hi as [(_ & <- & _)|[_ Hi]];
        [discriminate Hh|].
      apply list_lookup_insert_Some in Hj as [(_ & <- & _)|[_ Hj]];
        [discriminate Hh'|].
      by apply (H3 i j d d' h).
  - (* forget *)
    split; [done|]. split.
    + intros i d h Hi Hh.
      apply list_lookup_insert_Some in Hi as [(_ & <- & _)|[_ Hi]];
        [discriminate Hh|].
      by apply (H2 i).
    + intros i j d d' h Hi Hj Hh Hh'.
      apply list_lookup_insert_Some in Hi as [(_ & <- & _)|[_ Hi]];
        [discriminate Hh|].
      apply list_lookup_insert_Some in Hj as [(_ & <- & _)|[_ Hj]];
        [discriminate Hh'|].
      by apply (H3 i j d d' h).
  - (* arm *)
    assert (set_timerId None d0 = d0) as Hd0
      by (rewrite <- Hnone; apply set_timerId_id).
    split.
    { intros h t Hl. apply lookup_insert_Some in Hl as [[<- _]|[_ Hl]]; [lia|].
      pose proof (H1 h t Hl). lia. }
    split.
    + intros i d h Hi Hh.
      apply list_lookup_insert_Some in Hi as [(_ & <- & _)|[_ Hi]].
      * simpl in Hh. injection Hh as <-. split; [lia|].
        intros t Hl. rewrite lookup_insert_eq in Hl. injection Hl as <-.
        f_equal. symmetry. exact Hd0.
      * destruct (H2 i d h Hi Hh) as [Hlt Hown]. split; [lia|].
        intros t Hl. rewrite lookup_insert_ne in Hl by lia. by apply Hown.
    + intros i j d d' h Hi Hj Hh Hh'.
      apply list_lookup_insert_Some in Hi as [(<- & <- & _)|[Hne Hi]];
        apply list_lookup_insert_Some in Hj as [(<- & <- & _)|[Hne' Hj]];
        try done.
      * simpl in Hh. injection Hh as <-.
        destruct (H2 j d' _ Hj Hh') as [Hlt _]. lia.
      * simpl in Hh'. injection Hh' as <-.
        destruct (H2 i d _ Hi Hh) as [Hlt _]. lia.
      * by apply (H3 i j d d' h).
  - (* expire *)
    split.
    { intros h t Hl. apply lookup_delete_Some in Hl as [_ Hl]. by apply (H1 h t). }
    split; [|done].
    intros i d h Hi Hh. destruct (H2 i d h Hi Hh) as [Hlt Hown]. split; [done|].
    intros t Hl. apply lookup_delete_Some in Hl as [_ Hl]. by apply Hown.
Qed.

Lemma state_wf_change s s' : state_wf s -> change s s' -> state_wf s'.
Proof.
  intros (Hr & Hh & Ha) Hc. split; [by eapply registry_wf_change|].
  split; [by eapply handles_wf_change|].
  eapply armed_typed_change; [apply Hr | done | done].
Qed.

Lemma state_wf_new : state_wf new_TimersManager.
Proof.
  assert (forall h t, armed new_TimersManager !! h = Some t -> False) as Hno.
  { intros h t Hl.
    change (armed new_TimersManager) with (∅ : gmap handle platform_timer) in Hl.
    by rewrite lookup_empty in Hl. }
  split; [split; [apply NoDup_nil_2 | constructor]|]. split.
  - split; [intros h t Hl; by destruct (Hno h t)|].
    split; [intros i d h Hi; simpl in Hi; by rewrite lookup_nil in Hi|].
    intros i j d d' h Hi. simpl in Hi. by rewrite lookup_nil in Hi.
  - intros h t Hl. by destruct (Hno h t).
Qed.

Lemma name_unique (l : list descriptor) n i j d d' :
  NoDup (name <$> l) ->
  l !! i = Some d -> has_name n d -> l !! j = Some d' -> has_name n d' -> j = i.
Proof.
  intros Hnd Hi Hd Hj Hd'. apply (NoDup_lookup _ _ _ (VStr n) Hnd).
  - by rewrite list_lookup_fmap, Hj; simpl; rewrite Hd'.
  - by rewrite list_lookup_fmap, Hi; simpl; rewrite Hd.
Qed.

Lemma forEach_start_gen (l : list descriptor) (s0 s : state) :
  (next_handle s0 <= next_handle s)%positive ->
  exists l' s', forEach start_each l s = (Normal l', s')
    /\ only_platform s s'
    /\ (next_handle s <= next_handle s')%positive
    /\ (forall h, (h < next_handle s)%positive -> armed s' !! h = armed s !! h)
    /\ Forall2 (started_as s0 s') l l'.
Proof.
  revert s. induction l as [|d l IH]; intros s Hle; simpl.
  - exists [], s. split; [reflexivity|]. split; [apply only_platform_refl|].
    split; [lia|]. split; [done | constructor].
  - unfold bind at 1. unfold start_each at 1. unfold bind at 1.
    destruct (timerId d) as [h0|] eqn:Hd.
    + rewrite (_startTimer_present d h0 s Hd). simpl. unfold bind at 1.
      destruct (IH s Hle) as (l' & s2 & -> & Hframe & Hle2 & Hkeep & Hall).
      exists (set_timerId None d :: l'), s2.
      split; [reflexivity|]. split; [exact Hframe|]. split; [lia|].
      split; [exact Hkeep|]. constructor; [|exact Hall].
      unfold started_as. by rewrite Hd.
    + rewrite (_startTimer_absent d s Hd). simpl. unfold bind at 1.
      set (s1 := set_armed _ _ s).
      assert (next_handle s1 = Pos.succ (next_handle s)) as Hn by reflexivity.
      destruct (IH s1 ltac:(lia)) as (l' & s2 & -> & Hframe & Hle2 & Hkeep & Hall).
      exists (set_timerId (Some (next_handle s)) d :: l'), s2.
      split; [reflexivity|]. split; [exact Hframe|]. split; [lia|]. split.
      * intros h Hh. rewrite Hkeep by lia. subst s1. simpl.
        apply lookup_insert_ne. lia.
      * constructor; [|exact Hall]. unfold started_as. rewrite Hd.
        exists (next_handle s). split; [reflexivity|]. split; [|done].
        rewrite Hkeep by lia. subst s1. simpl. apply lookup_insert_eq.
Qed.

(** [start]'s loop arms nothing but the timers of the descriptors whose
    handle was absent, one for each, under the handle it stores. *)
Lemma forEach_start_bound (l : list descriptor) :
  forall s l' s', forEach start_each l s = (Normal l', s') ->
  forall h t, armed s' !! h = Some t ->
    armed s !! h = Some t
    \/ exists i d, l !! i = Some d /\ timerId d = None
         /\ l' !! i = Some (set_timerId (Some h) d) /\ t = timer_of d.
Proof.
  induction l as [|d l IH]; intros s l' s' Hrun h t Hh; simpl in Hrun.
  - injection Hrun as <- <-. by left.
  - unfold bind at 1 in Hrun. unfold start_each at 1 in Hrun.
    unfold bind at 1 in Hrun.
    destruct (timerId d) as [h0|] eqn:Hd.
    + rewrite (_startTimer_present d h0 s Hd) in Hrun. simpl in Hrun.
      unfold bind at 1 in Hrun.
      destruct (forEach start_each l s) as [[l2|e] s2] eqn:Hrest; [|discriminate].
      simpl in Hrun. injection Hrun as <- <-.
      destruct (IH s l2 s2 Hrest h t Hh) as [Hold|(i & d' & Hi & Hnone & Hi' & ->)];
        [by left|].
      right. by exists (S i), d'.
    + rewrite (_startTimer_absent d s Hd) in Hrun. simpl in Hrun.
      unfold bind at 1 in Hrun.
      set (s1 := set_armed _ _ s) in Hrun.
      destruct (forEach start_each l s1) as [[l2|e] s2] eqn:Hrest; [|discriminate].
      simpl in Hrun. injection Hrun as <- <-.
      destruct (IH s1 l2 s2 Hrest h t Hh) as [Hold|(i & d' & Hi & Hnone & Hi' & ->)].
      * subst s1. simpl in Hold.
        destruct (decide (h = next_handle s)) as [->|Hne].
        -- rewrite lookup_insert_eq in Hold. injection Hold as <-.
           right. by exists 0%nat, d.
        -- rewrite lookup_insert_ne in Hold by done. by left.
      * right. by exists (S i), d'.
Qed.

Lemma recurring_armed_change s s' :
  handles_wf s -> recurring_armed s -> change s s' -> recurring_armed s'.
Proof.
  intros (H1 & H2 & H3) Hra Hc.
  destruct Hc as [b s|t s|v ps s Hacc|i0 s|i0 d0 s Hi0|i0 d0 s Hi0
                  |i0 d0 s Hi0 Hnone|h0 t0 s Ht0 Hk|o s];
    unfold recurring_armed; simpl; try done.
  - intros i d h Hi Hh. apply lookup_snoc_Some in Hi as [[_ Hi]|[_ <-]];
      [by apply (Hra i) | discriminate Hh].
  - intros i d h Hi. destruct (decide (i < i0)%nat).
    + rewrite list_lookup_delete_lt in Hi by done. by apply (Hra i).
    + rewrite list_lookup_delete_ge in Hi by lia. by apply (Hra (S i)).
  - intros i d h Hi Hh Hiv.
    apply list_lookup_insert_Some in Hi as [(_ & <- & _)|[Hne Hi]];
      [discriminate Hh|].
    destruct (timerId d0) as [h0|] eqn:Hh0; [|by apply (Hra i d)].
    simpl. rewrite lookup_delete_ne; [by apply (Hra i d)|].
    intros ->. by pose proof (H3 i0 i d0 d h Hi0 Hi Hh0 Hh).
  - intros i d h Hi Hh.
    apply list_lookup_insert_Some in Hi as [(_ & <- & _)|[_ Hi]];
      [discriminate Hh|].
    by apply (Hra i).
  - intros i d h Hi Hh Hiv.
    apply list_lookup_insert_Some in Hi as [(_ & <- & _)|[_ Hi]].
    + simpl in Hh. injection Hh as <-. rewrite lookup_insert_eq. by eexists.
    + destruct (H2 i d h Hi Hh) as [Hlt _].
      rewrite lookup_insert_ne by lia. by apply (Hra i d).
  - intros i d h Hi Hh Hiv. destruct (Hra i d h Hi Hh Hiv) as [t Ht].
    rewrite lookup_delete_ne; [by eexists|]. intros ->.
    destruct (H2 i d h Hi Hh) as [_ Hown]. rewrite Ht in Ht0.
    injection Ht0 as <-. rewrite (Hown t Ht) in Hk.
    unfold timer_of in Hk. simpl in Hk. by rewrite Hiv in Hk.
Qed.

Section InvariantFacts.

Variable call : fn_id -> list value -> completion value.

Lemma reachable_state_wf s : reachable call s -> state_wf s.
Proof.
  intros Hr. apply reachable_changes in Hr.
  revert s Hr. apply (rtc_ind_r state_wf new_TimersManager state_wf_new).
  intros y z _ Hc Hy. by eapply state_wf_change.
Qed.

(** X12. In every reachable state the registry is well formed: no two
    descriptors have the same name, and every descriptor has a non-empty
    string name, a numeric delay that is neither below 0 nor above 5000, a
    boolean interval flag and a callable job.  So a registered name resolves
    to the one position that holds it. *)
Theorem registry_invariant (s : state) :
  reachable call s ->
  NoDup (name <$> timers s)
  /\ Forall well_typed (timers s)
  /\ forall i d n, timers s !! i = Some d -> has_name n d ->
       _findTimerIndex (VStr n) s = (Normal (Z.of_nat i), s).
Proof.
  intros Hr. destruct (reachable_state_wf s Hr) as ([Hnd Hty] & _ & _).
  split; [done|]. split; [done|].
  intros i d n Hi Hd.
  destruct (Forall_lookup_1 _ _ _ _ Hty Hi) as ((n' & Hn' & Hne) & _).
  assert (n' = n) as -> by (unfold has_name in Hd; congruence).
  rewrite _findTimerIndex_string by done.
  rewrite (findIndex_name_found n (timers s) i d); try done.
  intros j d' Hj Hlt Hd'. pose proof (name_unique _ _ _ _ _ _ Hnd Hi Hd Hj Hd'). lia.
Qed.

(** X13. In every reachable state the handles are well formed.  The next
    handle the platform hands out is in use nowhere: no timer is armed under
    it and no descriptor stores it, so arming never replaces a pending timer.
    A handle stored in the registry, when a timer is armed under it, belongs
    to the timer of the descriptor that stores it; and no handle is stored at
    two positions of the registry. *)
Theorem handles_invariant (s : state) :
  reachable call s ->
  armed s !! next_handle s = None
  /\ (forall d, d ∈ timers s -> timerId d <> Some (next_handle s))
  /\ (forall i d h t, timers s !! i = Some d -> timerId d = Some h ->
        armed s !! h = Some t -> t = timer_of (set_timerId None d))
  /\ (forall i j d d' h, timers s !! i = Some d -> timers s !! j = Some d' ->
        timerId d = Some h -> timerId d' = Some h -> i = j).
Proof.
  intros Hr. destruct (reachable_state_wf s Hr) as (_ & (H1 & H2 & H3) & _).
  split; [|split; [|split; [|exact H3]]].
  - destruct (armed s !! next_handle s) as [t|] eqn:E; [|done].
    pose proof (H1 _ _ E). lia.
  - intros d Hd Hh. apply list_elem_of_lookup_1 in Hd as [i Hi].
    destruct (H2 i d _ Hi Hh) as [Hlt _]. lia.
  - intros i d h t Hi Hh Hl. destruct (H2 i d h Hi Hh) as [_ Hown]. by apply Hown.
Qed.

(** X14. In every reachable state every armed timer was armed for a
    well-typed descriptor whose handle was absent: the timer is recurring
    exactly when that descriptor's interval flag is [true], its delay is the
    descriptor's, and its job is a function, so that a firing always calls
    the job on the bound arguments and never fails for want of a function. *)
Theorem armed_timers_typed (s : state) (h : handle) (t : platform_timer) :
  reachable call s ->
  armed s !! h = Some t ->
  exists d f fps,
    t = timer_of d /\ well_typed d
    /\ (pt_kind t = Interval <-> interval d = VBool true)
    /\ (pt_kind t = Timeout <-> interval d = VBool false)
    /\ pt_delay t = delay d
    /\ job d = VObj (Some f) fps
    /\ invoke call (sj_job (pt_callback t)) (sj_callbackParams (pt_callback t))
       = call f (callbackParams d).
Proof.
  intros Hr Hl. destruct (reachable_state_wf s Hr) as (_ & _ & Hat).
  destruct (Hat h t Hl) as (d & -> & Hwt).
  pose proof Hwt as (_ & _ & _ & _ & (b & Hb) & (f & fps & Hf)).
  exists d, f, fps. split; [done|]. split; [done|].
  unfold timer_of. simpl. rewrite Hb, Hf. simpl.
  repeat split; destruct b; simpl; congruence.
Qed.

(** X15. In a reachable state, [pause] and [remove] of a registered name
    leave every other registered timer alone: a descriptor at another
    position keeps its handle, and whatever is armed under that handle stays
    armed. *)
Theorem pause_leaves_other_timers
    (s : state) (n : string) (i j : nat) (d d2 : descriptor) (h2 : handle) :
  reachable call s ->
  timers s !! i = Some d -> has_name n d ->
  timers s !! j = Some d2 -> j <> i -> timerId d2 = Some h2 ->
  let s1 := snd (pause (VStr n) s) in
  let s2 := snd (remove (VStr n) s) in
  fst (pause (VStr n) s) = Normal (Z.of_nat i)
  /\ timers s1 !! j = Some d2
  /\ armed s1 !! h2 = armed s !! h2
  /\ d2 ∈ timers s2
  /\ armed s2 !! h2 = armed s !! h2.
Proof.
  intros Hr Hi Hd Hj Hne Hh2 s1 s2.
  destruct (reachable_state_wf s Hr) as ([Hnd Hty] & (_ & _ & H3) & _).
  destruct (Forall_lookup_1 _ _ _ _ Hty Hi) as ((n' & Hn' & Hnn) & _).
  assert (n' = n) as -> by (unfold has_name in Hd; congruence).
  assert (forall j' d', timers s !! j' = Some d' -> (j' < i)%nat -> ~ has_name n d')
    as Hfirst.
  { intros j' d' Hj' Hlt Hd'.
    pose proof (name_unique _ _ _ _ _ _ Hnd Hi Hd Hj' Hd'). lia. }
  assert (armed (disarm (timerId d) s) !! h2 = armed s !! h2) as Harmed.
  { destruct (timerId d) as [h|] eqn:Hh; [|done]. simpl.
    apply lookup_delete_ne. intros ->.
    pose proof (H3 i j d d2 h2 Hi Hj Hh Hh2). lia. }
  subst s1 s2. rewrite (pause_effect n s i d), (remove_effect n s i d) by done.
  simpl. split; [done|]. split; [by rewrite list_lookup_insert_ne|].
  split; [done|]. split; [|done].
  destruct (decide (j < i)%nat).
  - apply (list_elem_of_lookup_2 _ j). by rewrite list_lookup_delete_lt.
  - apply (list_elem_of_lookup_2 _ (j - 1)).
    rewrite list_lookup_delete_ge by lia.
    by replace (S (j - 1)) with j by lia.
Qed.

Lemma reachable_recurring_armed s : reachable call s -> recurring_armed s.
Proof.
  intros Hr. apply reachable_changes in Hr.
  assert (state_wf s /\ recurring_armed s) as [_ H]; [|exact H].
  revert s Hr.
  apply (rtc_ind_r (fun s => state_wf s /\ recurring_armed s) new_TimersManager).
  - split; [apply state_wf_new|].
    intros i d h Hi. simpl in Hi. by rewrite lookup_nil in Hi.
  - intros y z _ Hc [Hwf Hra]. split; [by eapply state_wf_change|].
    eapply recurring_armed_change; [apply Hwf | done | done].
Qed.

(** X16. In a reachable state that is not activated, [start] returns, sets
    the flag and disarms nothing: every armed timer stays armed.  A
    descriptor whose handle is absent gets a handle that was free, under
    which the timer for it is armed; a descriptor that already holds a handle
    (after [resume]) gets [null] stored instead and no new timer: every timer
    armed afterwards either was armed before or is the timer of a descriptor
    whose handle was absent, under the handle that descriptor now stores.
    The log is untouched. *)
Theorem start_effect (s : state) :
  reachable call s ->
  allStarted s = false ->
  exists s',
    start s = (Normal tt, s')
    /\ allStarted s' = true
    /\ (forall h t, armed s !! h = Some t -> armed s' !! h = Some t)
    /\ (forall i d, timers s !! i = Some d -> timerId d = None ->
          exists h, timers s' !! i = Some (set_timerId (Some h) d)
            /\ armed s' !! h = Some (timer_of d)
            /\ armed s !! h = None)
    /\ (forall i d h, timers s !! i = Some d -> timerId d = Some h ->
          timers s' !! i = Some (set_timerId None d))
    /\ (forall h t, armed s' !! h = Some t ->
          armed s !! h = Some t
          \/ exists i d, timers s !! i = Some d /\ timerId d = None
               /\ timers s' !! i = Some (set_timerId (Some h) d)
               /\ t = timer_of d)
    /\ length (timers s') = length (timers s)
    /\ log_of s' = log_of s.
Proof.
  intros Hr Ha.
  destruct (reachable_state_wf s Hr) as (_ & (H1 & _ & _) & _).
  unfold start, bind at 1, gets at 1. rewrite Ha. simpl.
  unfold bind at 1, timers_forEach, bind at 1, gets at 1, bind at 1.
  destruct (forEach_start_gen (timers s) s s ltac:(lia))
    as (l' & s' & Hrun & (Ht & _ & Hl & Har & _) & _ & Hkeep & Hall).
  pose proof (forEach_start_bound (timers s) s l' s' Hrun) as Hbound.
  rewrite Hrun.
  eexists. split; [reflexivity|]. simpl. split; [done|].
  split; [|split; [|split; [|split; [exact Hbound|split]]]].
  - intros h t Hh. rewrite Hkeep; [done|]. by apply (H1 h t).
  - intros i d Hi Hnone.
    destruct (Forall2_lookup_l _ _ _ _ _ Hall Hi) as (d' & Hi' & Hd').
    unfold started_as in Hd'. rewrite Hnone in Hd'.
    destruct Hd' as (h & -> & Harm & Hle). exists h. split; [done|].
    split; [done|]. destruct (armed s !! h) as [t|] eqn:E; [|done].
    pose proof (H1 h t E). lia.
  - intros i d h Hi Hh.
    destruct (Forall2_lookup_l _ _ _ _ _ Hall Hi) as (d' & Hi' & Hd').
    unfold started_as in Hd'. rewrite Hh in Hd'. by subst d'.
  - symmetry. by eapply Forall2_length.
  - unfold log_of, array_read. simpl. by rewrite Hl, Har.
Qed.

(** X17. In every reachable state a recurring descriptor that stores a handle
    has its own timer armed under that handle: a stored handle can be stale
    only for a one-shot timer (one that has fired). *)
Theorem recurring_handle_is_armed (s : state) (i : nat) (d : descriptor) (h : handle) :
  reachable call s ->
  timers s !! i = Some d -> timerId d = Some h -> interval d = VBool true ->
  armed s !! h = Some (timer_of (set_timerId None d))
  /\ pt_kind (timer_of (set_timerId None d)) = Interval.
Proof.
  intros Hr Hi Hh Hiv.
  destruct (reachable_state_wf s Hr) as (_ & (_ & H2 & _) & _).
  destruct (reachable_recurring_armed s Hr i d h Hi Hh Hiv) as [t Ht].
  destruct (H2 i d h Hi Hh) as [_ Hown].
  split; [by rewrite Ht, (Hown t Ht)|].
  unfold timer_of. simpl. by rewrite Hiv.
Qed.

(** X18. In every reachable state every entry of the log is under a non-empty
    string name, and an entry that carries an error has the output
    [null]. *)
Theorem log_entries_ok (s : state) :
  reachable call s -> Forall entry_ok (log_of s).
Proof.
  induction 1 as [|s op Hr IH]; [constructor|].
  destruct (fires op s) eqn:Hf.
  - destruct op; try discriminate Hf. simpl in Hf.
    apply bool_decide_eq_true in Hf as [t Ht].
    rewrite (exec_fire_armed call h t s Ht).
    replace (logData s) with (logData (expire h t s))
      by (unfold expire; by destruct (pt_kind t)).
    rewrite log_of_array_write. apply Forall_app. split; [done|].
    apply Forall_singleton.
    destruct (reachable_state_wf s Hr) as (_ & _ & Hat).
    destruct (Hat h t Ht) as (d & -> & ((n & Hn & Hne) & _)).
    unfold job_entry. simpl.
    destruct (invoke call (job d) (callbackParams d)) as [v|e]; split; simpl;
      try (by exists n); done.
  - assert (log_of (exec call op s) = log_of s) as ->; [|done].
    destruct op; try (apply log_same_log_of, not_fire_log_same; by intros).
    simpl in Hf. apply bool_decide_eq_false in Hf.
    rewrite exec_fire_unarmed; [done|].
    destruct (armed s !! h) eqn:E; [|done]. destruct Hf. by eexists.
Qed.

End InvariantFacts.

(** ** Concrete runs *)

(** The script of hw-3.js leaves [t1], [t2], [t4] and [t5] registered, each
    with the handle of its last arming, and exactly those four timers armed,
    whatever the jobs do. *)
Example source_script_run (call : fn_id -> list value -> completion value) :
  let s := exec_all call source_script new_TimersManager in
  map (fun d => (name d, delay d, timerId d)) (timers s)
  = [(VStr "t1", VNum num_1000, Some 7%positive);
     (VStr "t2", VNum num_1000, Some 6%positive);
     (VStr "t4", VNum num_500, Some 4%positive);
     (VStr "t5", VNum num_1200, Some 5%positive)]
  /\ size (armed s) = 4%nat
  /\ map (fun h => pt_kind <$> armed s !! h) [4%positive; 5%positive; 6%positive; 7%positive]
     = [Some Interval; Some Timeout; Some Timeout; Some Interval]
  /\ allStarted s = true /\ log_of s = [].
Proof. by repeat split. Qed.

(** The constants are doubles in canonical form (53-bit precision, exponents
    below 1024), which the comparison of [SpecFloat] relies on. *)
Example constants_are_doubles :
  forallb (valid_binary 53 1024)
    [num_0; num_1; num_2; num_22; num_33; num_500; num_1000; num_1200; num_5000;
     num_5001]
  = true.
Proof. reflexivity. Qed.

(** The interval [[0, 5000]] on some doubles. *)
Example in_range_samples :
  in_range num_0 = true /\ in_range (S754_zero true) = true
  /\ in_range num_1 = true /\ in_range num_33 = true
  /\ in_range num_500 = true /\ in_range num_5000 = true
  /\ in_range num_5001 = false
  /\ in_range (S754_finite true 8796093022208000 (-44)) = false
  /\ in_range (S754_infinity false) = false
  /\ in_range (S754_infinity true) = false
  /\ in_range S754_nan = false.
Proof. by repeat split. Qed.

(** A job that throws an error object: one entry, output [null], the error's
    name, message and stack. *)
Example firing_logs_error_object :
  exists entry s',
    fire sample_call 1%positive failing_state = (Normal tt, s')
    /\ log_of s' = log_of failing_state ++ [entry]
    /\ log_name entry = VStr "t5"
    /\ log_in entry = [VBool true]
    /\ log_out entry = VNull
    /\ log_error entry
       = Some (mkErrorObj (VStr "Error") (VStr "We have a problem!")
                          (VStr "Error: We have a problem!")).
Proof.
  assert (reachable sample_call failing_state) as Hr
    by (apply reachable_exec_all; constructor).
  assert (armed failing_state !! 1%positive
          = Some (timer_of (descriptor_of t5_descriptor [VBool true]))) as Hl
    by reflexivity.
  destruct (safeJob_logs_every_firing sample_call failing_state 1%positive _ Hr Hl)
    as (entry & s' & Hf & Hlog & Hn & Hin & _ & Hthrow & _).
  destruct (Hthrow _ eq_refl) as [Hout Herr].
  exists entry, s'. by repeat split.
Qed.

(** C1, at the failing input.  The job of [t6] throws [null].  Its firing is
    contained and logs exactly one entry with the name and inputs of [t6] and
    output [null], but the entry has no error field: [_log] decides by
    [if (error)] whether an error was passed, and the thrown [null] is
    falsy.  The entry is the one a job returning [null] would leave. *)
Theorem falsy_throw_logged_without_error :
  invoke sample_call (job (descriptor_of t6_descriptor [VBool true])) [VBool true]
  = Throw VNull
  /\ armed null_throw_state !! 1%positive
     = Some (timer_of (descriptor_of t6_descriptor [VBool true]))
  /\ exists entry s',
       fire sample_call 1%positive null_throw_state = (Normal tt, s')
       /\ log_of s' = log_of null_throw_state ++ [entry]
       /\ log_name entry = VStr "t6"
       /\ log_in entry = [VBool true]
       /\ log_out entry = VNull
       /\ log_error entry = None.
Proof.
  split; [reflexivity|]. split; [reflexivity|].
  exists (log_entry (descriptor_of t6_descriptor [VBool true]) VNull VNull 0),
         (snd (fire sample_call 1%positive null_throw_state)).
  split; [by vm_compute|]. by repeat split.
Qed.

Lemma add_failure_changes_nothing_witness :
  add t1_descriptor [] registered_state
  = (Throw (new_Error ("Timer " +:+ dquote +:+ "t1" +:+ dquote +:+ " already exists!")),
     registered_state)
  /\ timers registered_state = timers registered_state
  /\ log_of registered_state = log_of registered_state.
Proof.
  assert (add t1_descriptor [] registered_state
          = (Throw (new_Error ("Timer " +:+ dquote +:+ "t1" +:+ dquote
                               +:+ " already exists!")),
             registered_state)) as H by reflexivity.
  split; [exact H|].
  destruct (add_failure_changes_nothing _ _ _ _ _ H) as (Ht & Hlog & _).
  split; assumption.
Defined.

Lemma add_refused_while_activated_witness :
  allStarted started_state = true
  /\ valid_descriptor (timers started_state) t5_descriptor
  /\ add t5_descriptor [] started_state
     = (Throw (new_Error "Can not add new timer after start!"), started_state)
  /\ exists s1 s2 s3,
       stop started_state = (Normal tt, s1) /\ allStarted s1 = false
       /\ timers s1 = set_timerId None <$> timers started_state
       /\ add t5_descriptor [] s1 = (Normal tt, s2)
       /\ timers s2 = timers s1 ++ [descriptor_of t5_descriptor []]
       /\ start s2 = (Normal tt, s3) /\ allStarted s3 = true
       /\ Forall2 (armed_as s3) (timers s2) (timers s3).
Proof.
  assert (allStarted started_state = true) as Ha by reflexivity.
  assert (valid_descriptor (timers started_state) t5_descriptor) as Hv.
  { split; [|split; [|split]].
    - exists "t5". split; [reflexivity|]. split; [discriminate|].
      intros d Hd. apply list_elem_of_singleton in Hd. subst d. discriminate.
    - exists num_0. split; reflexivity.
    - exists false. reflexivity.
    - exists 1%nat, []. reflexivity. }
  destruct (add_refused_while_activated started_state Ha) as (_ & Hadd & Hcycle).
  split; [exact Ha|]. split; [exact Hv|]. split; [apply Hadd|].
  exact (Hcycle t5_descriptor [] Hv).
Defined.

Lemma remove_is_pause_then_delete_witness :
  remove (VStr "t9") registered_state = remove_spec (VStr "t9") registered_state
  /\ remove (VStr "t9") registered_state = (Normal tt, registered_state).
Proof.
  destruct (remove_is_pause_then_delete (VStr "t9") registered_state) as [Heq Hno].
  split; [exact Heq|].
  apply (Hno "t9" eq_refl); [discriminate|].
  intros d Hd. apply list_elem_of_singleton in Hd. subst d. discriminate.
Defined.

Lemma pause_resume_return_index_witness :
  "t1" <> EmptyString
  /\ fst (pause (VStr "t1") started_state) = Normal 0
  /\ fst (resume (VStr "t1") started_state) = Normal 0
  /\ pause (VStr "t9") started_state = (Normal (-1), started_state)
  /\ resume (VStr "t9") started_state = (Normal (-1), started_state).
Proof.
  assert ("t1" <> EmptyString) as Hn1 by discriminate.
  assert ("t9" <> EmptyString) as Hn9 by discriminate.
  destruct (pause_resume_return_index "t1" started_state Hn1) as [Hfound _].
  destruct (pause_resume_return_index "t9" started_state Hn9) as [_ Habsent].
  split; [exact Hn1|].
  destruct Hfound as (i & d & Hi & _ & _ & _ & Hp & Hr & _).
  { eexists. split; [apply list_elem_of_singleton; reflexivity | reflexivity]. }
  destruct i as [|i]; [|discriminate Hi].
  split; [exact Hp|]. split; [exact Hr|].
  apply Habsent. intros d' Hd'.
  apply list_elem_of_singleton in Hd'. subst d'. discriminate.
Defined.


Lemma print_returns_live_array_witness :
  fst (print logged_state) = Normal 0%nat
  /\ log_of (array_write 0%nat [] logged_state) = []
  /\ length (log_of logged_state) = 1%nat.
Proof.
  assert (fst (print logged_state) = Normal 0%nat) as Hp by reflexivity.
  destruct (print_returns_live_array logged_state 0%nat Hp) as (_ & _ & _ & Hw).
  split; [exact Hp|]. split; [apply (Hw []) | reflexivity].
Defined.

(** C9 as stated fails.  A recurring timer has fired once and the log holds
    its entry.  The caller takes the array from [print] and empties it; the
    timer fires again.  The log then holds one entry, where the job was
    invoked twice: without the caller's write it holds two. *)
Lemma print_mutation_corrupts_log :
  exists r,
    fst (print logged_state) = Normal r
    /\ length (log_of (exec sample_call (Fire 1%positive)
                         (array_write r [] logged_state))) = 1%nat
    /\ length (log_of (exec sample_call (Fire 1%positive) logged_state)) = 2%nat
    /\ log_of (exec sample_call (Fire 1%positive) (array_write r [] logged_state))
       <> log_of (exec sample_call (Fire 1%positive) logged_state).
Proof.
  exists 0%nat. split; [reflexivity|]. split; [reflexivity|].
  split; [reflexivity|].
  intros H. apply (f_equal length) in H. vm_compute in H. discriminate H.
Qed.

(** ** Concrete runs of the further properties *)

Lemma reachable_registered : reachable sample_call registered_state.
Proof. apply reachable_exec_all. constructor. Qed.

Lemma reachable_started : reachable sample_call started_state.
Proof. apply reachable_exec_all. constructor. Qed.

Lemma reachable_two_timers : reachable sample_call two_timers_state.
Proof. apply reachable_exec_all. constructor. Qed.

Lemma reachable_fired : reachable sample_call fired_state.
Proof. apply reachable_exec_all. constructor. Qed.

Lemma first_at_0 (l : list descriptor) n :
  forall j d', l !! j = Some d' -> (j < 0)%nat -> ~ has_name n d'.
Proof. intros j d' _ Hj. lia. Qed.

Lemma invalid_name_rejected_witness :
  ~ valid_name (VNum num_1)
  /\ pause (VNum num_1) started_state
     = (Throw (new_TypeError "Timer name must be string type!"), started_state)
  /\ remove (VStr EmptyString) started_state
     = (Throw (new_TypeError "Timer name must be string type!"), started_state).
Proof.
  assert (~ valid_name (VNum num_1)) as H1 by (intros (n & Hn & _); discriminate).
  assert (~ valid_name (VStr EmptyString)) as H2
    by (intros (n & [= <-] & Hn); by apply Hn).
  split; [exact H1|]. split.
  - apply (invalid_name_rejected (VNum num_1) started_state H1).
  - apply (invalid_name_rejected (VStr EmptyString) started_state H2).
Defined.

Lemma add_succeeds_only_if_witness :
  add t5_descriptor [] registered_state
  = (Normal tt,
     set_timers (timers registered_state ++ [descriptor_of t5_descriptor []])
                registered_state)
  /\ accepted (timers registered_state) t5_descriptor
  /\ allStarted started_state = true
  /\ exists e, add t5_descriptor [] started_state = (Throw e, started_state).
Proof.
  assert (add t5_descriptor [] registered_state
          = (Normal tt,
             set_timers (timers registered_state ++ [descriptor_of t5_descriptor []])
                        registered_state)) as H by reflexivity.
  assert (allStarted started_state = true) as Hs by reflexivity.
  destruct (add_succeeds_only_if t5_descriptor [] registered_state) as [Honly _].
  destruct (Honly _ H) as (_ & Hacc & _).
  destruct (add_succeeds_only_if t5_descriptor [] started_state) as [_ Hrefused].
  split; [exact H|]. split; [exact Hacc|]. split; [exact Hs|].
  apply Hrefused. left. exact Hs.
Defined.

Lemma add_then_lookup_witness :
  add t1_descriptor [] new_TimersManager = (Normal tt, registered_state)
  /\ _findTimerIndex (VStr "t1") registered_state = (Normal 0, registered_state)
  /\ fst (add (timer_object "t1" S754_nan false 7%nat) [] registered_state)
     = Throw (new_Error ("Timer " +:+ dquote +:+ "t1" +:+ dquote
                         +:+ " already exists!")).
Proof.
  assert (add t1_descriptor [] new_TimersManager = (Normal tt, registered_state))
    as H by reflexivity.
  destruct (add_then_lookup t1_descriptor [] _ _ H) as (Hfind & _ & Hdup).
  split; [exact H|]. split; [exact Hfind|].
  by rewrite (Hdup (timer_object "t1" S754_nan false 7%nat) [] eq_refl).
Defined.

Lemma pause_silences_timer_witness :
  timers started_state !! 0%nat = Some (set_timerId (Some 1%positive)
                                          (descriptor_of t1_descriptor []))
  /\ exists s',
       pause (VStr "t1") started_state = (Normal 0, s')
       /\ armed s' !! 1%positive = None
       /\ fire sample_call 1%positive s' = (Normal tt, s')
       /\ log_of s' = log_of started_state.
Proof.
  assert (timers started_state !! 0%nat
          = Some (set_timerId (Some 1%positive) (descriptor_of t1_descriptor [])))
    as Hi by reflexivity.
  split; [exact Hi|].
  destruct (pause_silences_timer "t1" started_state 0%nat _ ltac:(discriminate)
              Hi eq_refl (first_at_0 _ _))
    as (s' & Hp & _ & Hsilent & _ & _ & Hlog & _).
  destruct (Hsilent 1%positive eq_refl) as [Hnone Hfire].
  exists s'. split; [exact Hp|]. split; [exact Hnone|].
  split; [apply Hfire | exact Hlog].
Defined.

Lemma pause_then_resume_rearms_witness :
  next_handle started_state = 2%positive
  /\ exists s1 s2,
       pause (VStr "t1") started_state = (Normal 0, s1)
       /\ resume (VStr "t1") s1 = (Normal 0, s2)
       /\ armed s2 !! 2%positive = Some (timer_of (descriptor_of t1_descriptor []))
       /\ allStarted s2 = true.
Proof.
  split; [reflexivity|].
  destruct (pause_then_resume_rearms "t1" started_state 0%nat
              (set_timerId (Some 1%positive) (descriptor_of t1_descriptor []))
              ltac:(discriminate) eq_refl eq_refl (first_at_0 _ _))
    as (s1 & s2 & Hp & Hr & _ & Harmed & Hflag).
  exists s1, s2. split; [exact Hp|]. split; [exact Hr|].
  split; [exact Harmed | exact Hflag].
Defined.

Lemma resume_with_handle_only_clears_witness :
  armed fired_state !! 1%positive = None
  /\ timerId <$> timers fired_state !! 0%nat = Some (Some 1%positive)
  /\ exists s1 s2,
       resume (VStr "t5") fired_state = (Normal 0, s1)
       /\ armed s1 = armed fired_state
       /\ timerId <$> timers s1 !! 0%nat = Some None
       /\ resume (VStr "t5") s1 = (Normal 0, s2)
       /\ armed s2 !! 2%positive
          = Some (timer_of (descriptor_of t5_descriptor [VBool true])).
Proof.
  split; [reflexivity|]. split; [reflexivity|].
  destruct (resume_with_handle_only_clears "t5" fired_state 0%nat
              (set_timerId (Some 1%positive) (descriptor_of t5_descriptor [VBool true]))
              1%positive ltac:(discriminate) eq_refl eq_refl (first_at_0 _ _) eq_refl)
    as (s1 & s2 & Hr1 & Hs1 & Harmed & _ & Hr2 & _ & Harmed2).
  exists s1, s2. split; [exact Hr1|]. split; [exact Harmed|].
  split; [by rewrite Hs1|]. split; [exact Hr2|].
  rewrite Harmed2. apply lookup_insert_eq.
Defined.

Lemma remove_then_lookup_witness :
  NoDup (name <$> timers two_timers_state)
  /\ exists s',
       remove (VStr "t5") two_timers_state = (Normal tt, s')
       /\ length (timers s') = 1%nat
       /\ armed s' !! 2%positive = None
       /\ pause (VStr "t5") s' = (Normal (-1), s')
       /\ resume (VStr "t5") s' = (Normal (-1), s').
Proof.
  assert (NoDup (name <$> timers two_timers_state)) as Hnd.
  { apply NoDup_cons. split; [|apply NoDup_singleton].
    intros H. apply list_elem_of_singleton in H. discriminate H. }
  split; [exact Hnd|].
  destruct (remove_then_lookup "t5" two_timers_state 1%nat
              (set_timerId (Some 2%positive) (descriptor_of t5_descriptor [VBool true]))
              ltac:(discriminate) Hnd eq_refl eq_refl)
    as (s' & Hrm & Ht & _ & Hgone & _ & Hp & Hr).
  exists s'. split; [exact Hrm|]. split; [by rewrite Ht|].
  split; [exact (Hgone 2%positive eq_refl)|]. split; [exact Hp | exact Hr].
Defined.

Lemma start_stop_idempotent_witness :
  allStarted started_state = true
  /\ start started_state = (Normal tt, started_state)
  /\ allStarted registered_state = false
  /\ stop registered_state = (Normal tt, registered_state).
Proof.
  destruct (start_stop_idempotent started_state) as (Hstart & _).
  destruct (start_stop_idempotent registered_state) as (_ & Hstop & _).
  split; [reflexivity|]. split; [exact (Hstart eq_refl)|].
  split; [reflexivity | exact (Hstop eq_refl)].
Defined.

Lemma stop_disarms_registry_witness :
  allStarted two_timers_state = true
  /\ exists s',
       stop two_timers_state = (Normal tt, s')
       /\ allStarted s' = false
       /\ length (timers s') = 2%nat
       /\ armed s' !! 1%positive = None /\ armed s' !! 2%positive = None.
Proof.
  split; [reflexivity|].
  destruct (stop_disarms_registry two_timers_state eq_refl)
    as (s' & Hstop & Ht & Ha & Hdis & _).
  exists s'. split; [exact Hstop|]. split; [exact Ha|].
  split; [by rewrite Ht|]. split.
  - apply (Hdis (set_timerId (Some 1%positive) (descriptor_of t1_descriptor [])));
      [left | reflexivity].
  - apply (Hdis (set_timerId (Some 2%positive)
                   (descriptor_of t5_descriptor [VBool true])));
      [right; left | reflexivity].
Defined.

Lemma firing_repeats_by_kind_witness :
  armed two_timers_state !! 1%positive
  = Some (timer_of (descriptor_of t1_descriptor []))
  /\ length (log_of (exec_all sample_call (replicate 3 (Fire 1%positive))
                       two_timers_state)) = 3%nat
  /\ armed two_timers_state !! 2%positive
     = Some (timer_of (descriptor_of t5_descriptor [VBool true]))
  /\ length (log_of (exec_all sample_call (replicate 3 (Fire 2%positive))
                       two_timers_state)) = 1%nat.
Proof.
  assert (armed two_timers_state !! 1%positive
          = Some (timer_of (descriptor_of t1_descriptor []))) as H1 by reflexivity.
  assert (armed two_timers_state !! 2%positive
          = Some (timer_of (descriptor_of t5_descriptor [VBool true]))) as H2
    by reflexivity.
  destruct (firing_repeats_by_kind sample_call 1%positive _ two_timers_state 3 H1)
    as (_ & _ & Hrec & _).
  destruct (firing_repeats_by_kind sample_call 2%positive _ two_timers_state 2 H2)
    as (_ & _ & _ & Honce).
  destruct (Hrec eq_refl) as [Hlog1 _]. destruct (Honce eq_refl) as [Hlog2 _].
  split; [exact H1|]. split; [by rewrite Hlog1|].
  split; [exact H2 | by rewrite Hlog2].
Defined.

Lemma registry_invariant_witness :
  reachable sample_call two_timers_state
  /\ NoDup (name <$> timers two_timers_state)
  /\ _findTimerIndex (VStr "t5") two_timers_state = (Normal 1, two_timers_state).
Proof.
  destruct (registry_invariant sample_call two_timers_state reachable_two_timers)
    as (Hnd & _ & Hfind).
  split; [exact reachable_two_timers|]. split; [exact Hnd|].
  exact (Hfind 1%nat _ "t5" eq_refl eq_refl).
Defined.

Lemma handles_invariant_witness :
  reachable sample_call two_timers_state
  /\ armed two_timers_state !! next_handle two_timers_state = None
  /\ forall d, d ∈ timers two_timers_state ->
       timerId d <> Some (next_handle two_timers_state).
Proof.
  destruct (handles_invariant sample_call two_timers_state reachable_two_timers)
    as (Hfree & Hnot & _).
  split; [exact reachable_two_timers|]. split; [exact Hfree | exact Hnot].
Defined.

Lemma armed_timers_typed_witness :
  reachable sample_call two_timers_state
  /\ armed two_timers_state !! 2%positive
     = Some (timer_of (descriptor_of t5_descriptor [VBool true]))
  /\ exists d f fps,
       timer_of (descriptor_of t5_descriptor [VBool true]) = timer_of d
       /\ well_typed d /\ job d = VObj (Some f) fps.
Proof.
  assert (armed two_timers_state !! 2%positive
          = Some (timer_of (descriptor_of t5_descriptor [VBool true]))) as H2
    by reflexivity.
  split; [exact reachable_two_timers|]. split; [exact H2|].
  destruct (armed_timers_typed sample_call two_timers_state 2%positive _
              reachable_two_timers H2)
    as (d & f & fps & Ht & Hwt & _ & _ & _ & Hjob & _).
  exists d, f, fps. split; [exact Ht|]. split; [exact Hwt | exact Hjob].
Defined.

Lemma pause_leaves_other_timers_witness :
  reachable sample_call two_timers_state
  /\ fst (pause (VStr "t1") two_timers_state) = Normal 0
  /\ armed (snd (pause (VStr "t1") two_timers_state)) !! 2%positive
     = armed two_timers_state !! 2%positive
  /\ armed (snd (remove (VStr "t1") two_timers_state)) !! 2%positive
     = armed two_timers_state !! 2%positive.
Proof.
  destruct (pause_leaves_other_timers sample_call two_timers_state "t1"
              0%nat 1%nat _ _ 2%positive reachable_two_timers
              eq_refl eq_refl eq_refl ltac:(lia) eq_refl)
    as (Hidx & _ & Ha1 & _ & Ha2).
  split; [exact reachable_two_timers|]. split; [exact Hidx|].
  split; [exact Ha1 | exact Ha2].
Defined.

Lemma start_effect_witness :
  reachable sample_call registered_state
  /\ allStarted registered_state = false
  /\ exists s',
       start registered_state = (Normal tt, s')
       /\ allStarted s' = true
       /\ exists h, timers s' !! 0%nat
                    = Some (set_timerId (Some h) (descriptor_of t1_descriptor []))
            /\ armed s' !! h = Some (timer_of (descriptor_of t1_descriptor [])).
Proof.
  split; [exact reachable_registered|]. split; [reflexivity|].
  destruct (start_effect sample_call registered_state reachable_registered eq_refl)
    as (s' & Hstart & Ha & _ & Harm & _).
  destruct (Harm 0%nat (descriptor_of t1_descriptor []) eq_refl eq_refl)
    as (h & Hi & Hh & _).
  exists s'. split; [exact Hstart|]. split; [exact Ha|].
  exists h. split; [exact Hi | exact Hh].
Defined.

Lemma recurring_handle_is_armed_witness :
  reachable sample_call two_timers_state
  /\ armed two_timers_state !! 1%positive
     = Some (timer_of (set_timerId None
               (set_timerId (Some 1%positive) (descriptor_of t1_descriptor [])))).
Proof.
  split; [exact reachable_two_timers|].
  apply (recurring_handle_is_armed sample_call two_timers_state 0%nat
           (set_timerId (Some 1%positive) (descriptor_of t1_descriptor []))
           1%positive reachable_two_timers eq_refl eq_refl eq_refl).
Defined.

Lemma log_entries_ok_witness :
  reachable sample_call logged_state
  /\ length (log_of logged_state) = 1%nat
  /\ Forall entry_ok (log_of logged_state).
Proof.
  assert (reachable sample_call logged_state) as Hr
    by (apply reachable_exec_all; constructor).
  split; [exact Hr|]. split; [reflexivity|].
  exact (log_entries_ok sample_call logged_state Hr).
Defined.

End TimersManager.
